(** * Ytsubfetch: the subscribed-videos route handler

    A shallow embedding of the [GET] handler of [app/api/videos/route.ts].
    The repository holds two versions of that handler:

    - [src/app/api/videos/route.ts]  (module [RouteTs] below);
    - [src/unnamed/part_000]         (module [Part000] below), which adds the
      token check against the userinfo endpoint and the cache headers.

    Both share, line for line, the subscription stage, the per-channel loop,
    the sanitizer and the sort; those parts are embedded once.

    Modelling decisions.
    - Upstream JSON is modelled after the type declarations of the source
      ([YouTubeVideo], [Subscription]): every optional field is an [option],
      [None] standing for an absent ([undefined] or [null]) property.
    - [fetch], [Response.json], [new Date()] and [Date] parsing belong to the
      platform.  They are fields of a [World] the handler runs against; a
      [fetch] may reject, a body may fail to parse, a timestamp may parse to
      NaN.
    - The handler is written in a state-and-exception monad whose state is
      the list of upstream calls issued so far.
    - [console.log] and [console.error] are not modelled. *)

From Stdlib Require Import String List ZArith Bool Lia.
From Stdlib Require Import Sorting.Sorted Sorting.Permutation.
Import ListNotations.
Open Scope string_scope.
Open Scope Z_scope.
Open Scope list_scope.

Set Implicit Arguments.

(** ** Data model *)

(** [YouTubeVideo], route.ts:4-11 (part_000:5-12). *)
Module Raw.
Record Id := { videoId : option string }.
Record Medium := { url : option string }.
Record Thumbnails := { medium : option Medium }.
Record Snippet := {
  title : option string;
  thumbnails : option Thumbnails;
  publishedAt : option string
}.
Record YouTubeVideo := { id : option Id; snippet : option Snippet }.
End Raw.

(** [Subscription], route.ts:13-18 (part_000:14-19). *)
Module Sub.
Record ResourceId := { channelId : option string }.
Record Snippet := { resourceId : option ResourceId; title : option string }.
Record Subscription := { snippet : option Snippet }.
End Sub.

(** [SanitizedVideo], route.ts:20-27 (part_000:21-28): the same shape with
    every field present. *)
Module San.
Record Id := { videoId : string }.
Record Medium := { url : string }.
Record Thumbnails := { medium : Medium }.
Record Snippet := {
  title : string;
  thumbnails : Thumbnails;
  publishedAt : string
}.
Record SanitizedVideo := { id : Id; snippet : Snippet }.
End San.

Definition YouTubeVideo : Type := Raw.YouTubeVideo.
Definition Subscription : Type := Sub.Subscription.
Definition SanitizedVideo : Type := San.SanitizedVideo.

(** The [error] object of a Google API payload: the handler reads
    [error.message] and [error.code]. *)
Record ApiError := { message : option string; code : option Z }.

(** A JSON payload as the handler reads it: [payload.error] and
    [payload.items]. *)
Record Payload (Item : Type) := {
  error : option ApiError;
  items : option (list Item)
}.

(** The result of a settled [fetch]: the HTTP status and what
    [response.json()] gives, [inl msg] when the body is not JSON and the
    promise rejects with message [msg]. *)
Record FetchResponse (B : Type) := {
  http_status : Z;
  json : string + B
}.

(** [response.ok]: the status is in the range 200-299. *)
Definition ok {B} (r : FetchResponse B) : bool :=
  (200 <=? http_status r) && (http_status r <=? 299).

(** A [fetch] either rejects ([inl msg], a transport failure) or settles
    with a response. *)
Definition Fetched (B : Type) : Type := string + FetchResponse B.

(** Upstream calls, as they appear in the trace. *)
Inductive Call : Type :=
| UserInfo (bearer : string)
| Subscriptions (bearer : string)
| Search (key : option string) (channelId : string).

Definition Trace := list Call.

Definition is_search (c : Call) : bool :=
  match c with Search _ _ => true | _ => false end.

(** The environment of one request.  Every upstream answer may depend on the
    calls made before it. *)
Record World := {
  YOUTUBE_API_KEY : option string;
  userinfo : Trace -> string -> Fetched unit;
  subscriptions : Trace -> string -> Fetched (Payload Subscription);
  search : Trace -> option string -> string -> Fetched (Payload YouTubeVideo);
  (** [new Date().toISOString()] evaluated for the item of index [i] of the
      batch sanitized after the calls of the trace. *)
  Date_now : Trace -> nat -> string;
  (** [new Date(s).getTime()]; [None] is NaN. *)
  Date_getTime : string -> option Z
}.

(** The incoming request: the query parameters of [request.url]. *)
Record Request := { searchParams : list (string * string) }.

(** [searchParams.get(name)]: the first value of that name, else [null]. *)
Fixpoint searchParams_get (ps : list (string * string)) (name : string)
  : option string :=
  match ps with
  | [] => None
  | (k, v) :: ps' => if String.eqb k name then Some v else searchParams_get ps' name
  end.

(** ** Responses *)

Inductive Exn : Type :=
| FetchFailed (msg : string)        (* fetch rejected *)
| BodyNotJson (msg : string)        (* response.json() rejected *)
| StatusOutOfRange (status : Z)     (* RangeError of the Response constructor *)
| NullBodyStatus (status : Z).      (* TypeError of the Response constructor *)

Inductive Details : Type :=
| DetailsError (e : ApiError)       (* details: subscriptionsData.error *)
| DetailsMessage (e : Exn).         (* details: error.message / String(error) *)

Inductive Body : Type :=
| ErrorBody (error : string) (details : option Details)
| ItemsBody (items : list SanitizedVideo) (subscriptionCount : nat).

(** The response the handler returns; [headers] are the headers of the
    [init] argument. *)
Record NextResponse := {
  status : Z;
  headers : list (string * string);
  body : Body
}.

Record ResponseInit := {
  init_status : option Z;
  init_headers : list (string * string)
}.

(** The header object written out at part_000:47-51, 66-70, 142-146 and
    154-158. *)
Definition cacheHeaders : list (string * string) :=
  [ ("Cache-Control", "no-store, no-cache, must-revalidate, proxy-revalidate");
    ("Pragma", "no-cache");
    ("Expires", "0") ].

(** ** The monad of the handler *)

Inductive Completion (A : Type) : Type :=
| Normal (a : A)
| Throw (e : Exn).
Arguments Throw {A} e.

Definition M (A : Type) : Type := Trace -> Completion A * Trace.

Definition ret {A} (a : A) : M A := fun tr => (Normal a, tr).

Definition throw {A} (e : Exn) : M A := fun tr => (Throw e, tr).

Definition bind {A B} (m : M A) (k : A -> M B) : M B :=
  fun tr =>
    match m tr with
    | (Normal a, tr') => k a tr'
    | (Throw e, tr') => (Throw e, tr')
    end.

(** [try { m } catch (error) { h error }]. *)
Definition try_catch {A} (m : M A) (h : Exn -> M A) : M A :=
  fun tr =>
    match m tr with
    | (Normal a, tr') => (Normal a, tr')
    | (Throw e, tr') => h e tr'
    end.

Notation "x <- m ;; k" := (bind m (fun x => k))
  (at level 61, m at next level, right associativity).

(** [await fetch(...)]: the call is recorded, then the world answers. *)
Definition fetch {B} (c : Call) (answer : Trace -> Fetched B)
  : M (FetchResponse B) :=
  fun tr =>
    match answer tr with
    | inl msg => (Throw (FetchFailed msg), tr ++ [c])
    | inr r => (Normal r, tr ++ [c])
    end.

(** [await response.json()]. *)
Definition response_json {B} (r : FetchResponse B) : M B :=
  match json r with
  | inl msg => throw (BodyNotJson msg)
  | inr b => ret b
  end.

(** The statuses of a response that cannot have a body. *)
Definition null_body_status (st : Z) : bool :=
  (st =? 101) || (st =? 103) || (st =? 204) || (st =? 205) || (st =? 304).

(** [NextResponse.json(body, init)]: status 200 unless given; the Response
    constructor refuses a status outside 200-599, and a body together with
    a null-body status. *)
Definition NextResponse_json (b : Body) (init : ResponseInit) : M NextResponse :=
  let st := match init_status init with Some s => s | None => 200 end in
  if (200 <=? st) && (st <=? 599)
  then
    if null_body_status st then throw (NullBodyStatus st)
    else ret {| status := st; headers := init_headers init; body := b |}
  else throw (StatusOutOfRange st).

(** ** JavaScript operators on optional strings *)

(** Truthiness of a string-or-absent value: absent and [''] are falsy. *)
Definition truthy (o : option string) : bool :=
  match o with
  | Some s => negb (String.eqb s "")
  | None => false
  end.

(** [o || d]. *)
Definition or_else (o : option string) (d : string) : string :=
  match o with
  | Some s => if String.eqb s "" then d else s
  | None => d
  end.

(** [c || 400] on a number: absent and [0] are falsy. *)
Definition or_else_Z (o : option Z) (d : Z) : Z :=
  match o with
  | Some c => if c =? 0 then d else c
  | None => d
  end.

(** Optional chaining [o?.f]. *)
Definition opt {A B} (o : option A) (f : A -> option B) : option B :=
  match o with
  | Some a => f a
  | None => None
  end.

Notation "o ?. f" := (opt o f) (at level 40, left associativity).

(** ** Subscription stage: channel identifiers *)

(** [.filter(Boolean)] on an array of optional strings. *)
Fixpoint filter_Boolean (l : list (option string)) : list string :=
  match l with
  | [] => []
  | o :: l' =>
      if truthy o then or_else o "" :: filter_Boolean l' else filter_Boolean l'
  end.

(** route.ts:64-66 (part_000:100-102). *)
Definition channelIds (items : list Subscription) : list string :=
  filter_Boolean
    (map (fun sub => Sub.snippet sub ?. Sub.resourceId ?. Sub.channelId) items).

(** ** Sanitizer *)

(** The callback of [map], route.ts:85-91 (part_000:121-127).  [now] is the
    value [new Date().toISOString()] has at that moment; it is used only
    when the record has no publish timestamp. *)
Definition sanitize (now : string) (item : YouTubeVideo) : SanitizedVideo :=
  {| San.id := {| San.videoId := or_else (Raw.id item ?. Raw.videoId) "" |};
     San.snippet :=
       {| San.title := or_else (Raw.snippet item ?. Raw.title) "";
          San.thumbnails :=
            {| San.medium :=
                 {| San.url :=
                      or_else (Raw.snippet item ?. Raw.thumbnails
                                 ?. Raw.medium ?. Raw.url) "" |} |};
          San.publishedAt := or_else (Raw.snippet item ?. Raw.publishedAt) now |} |}.

Definition videoId (v : SanitizedVideo) : string := San.videoId (San.id v).
Definition title (v : SanitizedVideo) : string := San.title (San.snippet v).
Definition thumbnail (v : SanitizedVideo) : string :=
  San.url (San.medium (San.thumbnails (San.snippet v))).
Definition publishedAt (v : SanitizedVideo) : string :=
  San.publishedAt (San.snippet v).

(** The callback of [filter], route.ts:92 (part_000:128):
    [video.id.videoId && video.snippet.thumbnails.medium.url]. *)
Definition keep (video : SanitizedVideo) : bool :=
  negb (String.eqb (videoId video) "") && negb (String.eqb (thumbnail video) "").

(** [Array.prototype.map], the callback receiving the index as well. *)
Fixpoint map_from {A B} (f : nat -> A -> B) (i : nat) (l : list A) : list B :=
  match l with
  | [] => []
  | a :: l' => f i a :: map_from f (S i) l'
  end.

(** [data.items?.map(...).filter(...) || []], route.ts:85-92
    (part_000:121-128): an absent [items] short-circuits the chain. *)
Definition sanitizedVideos (now : nat -> string)
    (items : option (list YouTubeVideo)) : list SanitizedVideo :=
  match items with
  | None => []
  | Some l => filter keep (map_from (fun i item => sanitize (now i) item) O l)
  end.

(** ** Sort and limit *)

Section Sort.
Variable getTime : string -> option Z.

(** The comparator of route.ts:99 (part_000:135); [None] is NaN. *)
Definition compareFn (a b : SanitizedVideo) : option Z :=
  match getTime (publishedAt b), getTime (publishedAt a) with
  | Some tb, Some ta => Some (tb - ta)
  | _, _ => None
  end.

(** [a] may stay in front of [b]: the comparator is not positive, a NaN
    counting as [+0]. *)
Definition stays_before (a b : SanitizedVideo) : bool :=
  match compareFn a b with
  | Some v => v <=? 0
  | None => true
  end.

Fixpoint insert (a : SanitizedVideo) (l : list SanitizedVideo)
  : list SanitizedVideo :=
  match l with
  | [] => [a]
  | b :: l' => if stays_before a b then a :: b :: l' else b :: insert a l'
  end.

(** [Array.prototype.sort] with that comparator.  The sort of ECMAScript is
    stable, and on a consistent comparator every stable sort returns the
    same array; the model is the stable insertion sort.  With a NaN among
    the timestamps the comparator is not consistent and ECMAScript leaves
    the order to the implementation, of which this is one. *)
Fixpoint sort (l : list SanitizedVideo) : list SanitizedVideo :=
  match l with
  | [] => []
  | a :: l' => insert a (sort l')
  end.

(** [allVideos.sort(...).slice(0, 10)], route.ts:98-100
    (part_000:134-136). *)
Definition sortedVideos (allVideos : list SanitizedVideo)
  : list SanitizedVideo :=
  firstn 10 (sort allVideos).
End Sort.

(** ** The handler *)

Section Handler.
Variable w : World.

(** The clock at this point of the run. *)
Definition clock : M (nat -> string) :=
  fun tr => (Normal (Date_now w tr), tr).

Definition is_Some {A} (o : option A) : bool :=
  match o with Some _ => true | None => false end.

(** The loop of route.ts:72-95 (part_000:108-131), [allVideos] being the
    array filled so far. *)
Fixpoint for_channelIds (ids : list string) (allVideos : list SanitizedVideo)
  : M (list SanitizedVideo) :=
  match ids with
  | [] => ret allVideos
  | channelId :: rest =>
      response <- fetch (Search (YOUTUBE_API_KEY w) channelId)
                    (fun tr => search w tr (YOUTUBE_API_KEY w) channelId) ;;
      data <- response_json response ;;
      if negb (ok response) || is_Some (error data)
      then for_channelIds rest allVideos          (* continue *)
      else
        now <- clock ;;
        for_channelIds rest (allVideos ++ sanitizedVideos now (items data))
  end.

(** route.ts:38-105 and part_000:74-147, which differ only in the [init]
    of the final response ([successInit]). *)
Definition subscribedVideos (successInit : ResponseInit) (accessToken : string)
  : M NextResponse :=
  subscriptionsResponse <-
    fetch (Subscriptions accessToken)
      (fun tr => subscriptions w tr accessToken) ;;
  subscriptionsData <- response_json subscriptionsResponse ;;
  match error subscriptionsData with
  | Some e =>
      NextResponse_json
        (ErrorBody (or_else (message e) "YouTube API Error")
           (Some (DetailsError e)))
        {| init_status := Some (or_else_Z (code e) 400); init_headers := [] |}
  | None =>
      match items subscriptionsData with
      | None | Some [] =>
          NextResponse_json (ErrorBody "No subscriptions found" None)
            {| init_status := Some 404; init_headers := [] |}
      | Some subs =>
          let ids := channelIds subs in
          allVideos <- for_channelIds ids [] ;;
          NextResponse_json
            (ItemsBody (sortedVideos (Date_getTime w) allVideos)
               (length ids))
            successInit
      end
  end.
End Handler.

(** [GET] of src/app/api/videos/route.ts (lines 29-113).  Past the check
    of line 33 [accessToken] is a non-empty string, [or_else accessToken ""]
    here. *)
Module RouteTs.
Definition GET (w : World) (request : Request) : M NextResponse :=
  let accessToken := searchParams_get (searchParams request) "access_token" in
  if negb (truthy accessToken)
  then
    NextResponse_json (ErrorBody "Access token required" None)
      {| init_status := Some 401; init_headers := [] |}
  else
    try_catch
      (subscribedVideos w
         {| init_status := None; init_headers := [] |}
         (or_else accessToken ""))
      (fun error =>
         NextResponse_json
           (ErrorBody "Internal server error" (Some (DetailsMessage error)))
           {| init_status := Some 500; init_headers := [] |}).
End RouteTs.

(** [GET] of src/unnamed/part_000 (lines 33-162).  The [NextResponse] built
    at lines 36-39 is never returned and [headers()] at line 35 is not
    used; neither has a counterpart here.  Past the check of line 44
    [accessToken] is a non-empty string. *)
Module Part000.
Definition GET (w : World) (request : Request) : M NextResponse :=
  let accessToken := searchParams_get (searchParams request) "access_token" in
  if negb (truthy accessToken)
  then
    NextResponse_json (ErrorBody "Access token required" None)
      {| init_status := Some 401; init_headers := cacheHeaders |}
  else
    let accessToken := or_else accessToken "" in
    try_catch
      (userInfoResponse <-
         fetch (UserInfo accessToken) (fun tr => userinfo w tr accessToken) ;;
       if negb (ok userInfoResponse)
       then
         NextResponse_json (ErrorBody "Invalid or expired access token" None)
           {| init_status := Some 401; init_headers := cacheHeaders |}
       else
         subscribedVideos w
           {| init_status := None; init_headers := cacheHeaders |}
           accessToken)
      (fun error =>
         NextResponse_json
           (ErrorBody "Internal server error" (Some (DetailsMessage error)))
           {| init_status := Some 500; init_headers := cacheHeaders |}).
End Part000.

(** [searchParams.get("access_token")], route.ts:31 (part_000:42). *)
Definition accessToken (request : Request) : option string :=
  searchParams_get (searchParams request) "access_token".

(** A run of a handler starts with no call issued. *)
Definition run {A} (m : M A) : Completion A * Trace := m [].

(** ** Example worlds *)

Module Examples.

Definition rawVideo (vid thumb : string) (name when : option string)
  : YouTubeVideo :=
  {| Raw.id := Some {| Raw.videoId := Some vid |};
     Raw.snippet :=
       Some {| Raw.title := name;
               Raw.thumbnails :=
                 Some {| Raw.medium := Some {| Raw.url := Some thumb |} |};
               Raw.publishedAt := when |} |}.

Definition subscription (channel : string) : Subscription :=
  {| Sub.snippet :=
       Some {| Sub.resourceId := Some {| Sub.channelId := Some channel |};
               Sub.title := Some "a channel" |} |}.

Definition T0 := "2024-03-07T12:00:00Z".
Definition T1 := "2024-03-06T12:00:00Z".
Definition T2 := "2024-03-05T12:00:00Z".
Definition T3 := "2024-03-04T12:00:00Z".
Definition T4 := "2024-03-03T12:00:00Z".

(** [Date] parsing on the timestamps of the examples; any other string is
    taken to be unparseable. *)
Definition getTime (s : string) : option Z :=
  if String.eqb s T0 then Some 1709812800000
  else if String.eqb s T1 then Some 1709726400000
  else if String.eqb s T2 then Some 1709640000000
  else if String.eqb s T3 then Some 1709553600000
  else if String.eqb s T4 then Some 1709467200000
  else None.

Definition videosA : list YouTubeVideo :=
  [ rawVideo "a1" "https://i.ytimg.com/vi/a1/mqdefault.jpg" (Some "A one") (Some T1);
    rawVideo "a2" "https://i.ytimg.com/vi/a2/mqdefault.jpg" None (Some T2);
    rawVideo "a3" "https://i.ytimg.com/vi/a3/mqdefault.jpg" (Some "A three") (Some T3) ].

Definition videosB : list YouTubeVideo :=
  [ rawVideo "b1" "https://i.ytimg.com/vi/b1/mqdefault.jpg" (Some "B one") (Some T0);
    rawVideo "b2" "https://i.ytimg.com/vi/b2/mqdefault.jpg" (Some "B two") (Some T4) ].

Definition okJson {B} (b : B) : Fetched B :=
  inr {| http_status := 200; json := inr b |}.

Definition itemsOnly {I} (l : list I) : Payload I :=
  {| error := None; items := Some l |}.

Definition quotaExceeded : ApiError :=
  {| message := Some "quotaExceeded"; code := Some 403 |}.

(** Section 8 of the specification: two subscribed channels, the first
    with three videos and the second with two. *)
Definition world : World :=
  {| YOUTUBE_API_KEY := Some "server-key";
     userinfo := fun _ _ => okJson tt;
     subscriptions := fun _ _ =>
       okJson (itemsOnly [subscription "UCa"; subscription "UCb"]);
     search := fun _ _ channel =>
       if String.eqb channel "UCa" then okJson (itemsOnly videosA)
       else if String.eqb channel "UCb" then okJson (itemsOnly videosB)
       else inr {| http_status := 404;
                   json := inr {| error := Some quotaExceeded; items := None |} |};
     Date_now := fun _ _ => T0;
     Date_getTime := getTime |}.

Definition request : Request :=
  {| searchParams := [("access_token", "ya29.token")] |}.

Definition with_userinfo (f : Trace -> string -> Fetched unit) (w : World)
  : World :=
  {| YOUTUBE_API_KEY := YOUTUBE_API_KEY w;
     userinfo := f;
     subscriptions := subscriptions w;
     search := search w;
     Date_now := Date_now w;
     Date_getTime := Date_getTime w |}.

Definition with_subscriptions
    (f : Trace -> string -> Fetched (Payload Subscription)) (w : World)
  : World :=
  {| YOUTUBE_API_KEY := YOUTUBE_API_KEY w;
     userinfo := userinfo w;
     subscriptions := f;
     search := search w;
     Date_now := Date_now w;
     Date_getTime := Date_getTime w |}.

Definition with_search
    (f : Trace -> option string -> string -> Fetched (Payload YouTubeVideo))
    (w : World) : World :=
  {| YOUTUBE_API_KEY := YOUTUBE_API_KEY w;
     userinfo := userinfo w;
     subscriptions := subscriptions w;
     search := f;
     Date_now := Date_now w;
     Date_getTime := Date_getTime w |}.

(** No [access_token] in the query. *)
Definition request_without_token : Request :=
  {| searchParams := [("page", "2")] |}.

(** The userinfo endpoint answers 401. *)
Definition world_token_rejected : World :=
  with_userinfo
    (fun _ _ => inr {| http_status := 401; json := inr tt |}) world.

(** The user has no subscription. *)
Definition world_no_subscriptions : World :=
  with_subscriptions (fun _ _ => okJson (itemsOnly [])) world.

Definition backendError : ApiError :=
  {| message := Some "Backend Error"; code := Some 500 |}.

(** The search call of the first channel is answered 500 with an error
    payload; the second channel is as before. *)
Definition world_channel_500 : World :=
  with_search
    (fun tr k channel =>
       if String.eqb channel "UCa"
       then inr {| http_status := 500;
                   json := inr {| error := Some backendError;
                                  items := None |} |}
       else search world tr k channel) world.

(** The search call of the first channel fails at the transport level;
    the second channel is as before. *)
Definition world_channel_unreachable : World :=
  with_search
    (fun tr k channel =>
       if String.eqb channel "UCa" then inl "fetch failed"
       else search world tr k channel) world.

(** One channel whose second record has a publish timestamp that is not a
    date, between an older and a newer record. *)
Definition videosC : list YouTubeVideo :=
  [ rawVideo "c1" "https://i.ytimg.com/vi/c1/mqdefault.jpg" (Some "C one") (Some T4);
    rawVideo "c2" "https://i.ytimg.com/vi/c2/mqdefault.jpg" (Some "C two")
      (Some "not-a-date");
    rawVideo "c3" "https://i.ytimg.com/vi/c3/mqdefault.jpg" (Some "C three") (Some T0) ].

Definition world_unparseable_timestamp : World :=
  with_subscriptions (fun _ _ => okJson (itemsOnly [subscription "UCc"]))
    (with_search (fun _ _ _ => okJson (itemsOnly videosC)) world).

(** The subscriptions endpoint answers 500, with a body that has records
    and no error field. *)
Definition world_subscriptions_500 : World :=
  with_subscriptions
    (fun _ _ =>
       inr {| http_status := 500;
              json := inr (itemsOnly [subscription "UCa"; subscription "UCb"]) |})
    world.

(** The subscriptions endpoint answers 500 with neither records nor an
    error field. *)
Definition world_subscriptions_500_empty : World :=
  with_subscriptions
    (fun _ _ =>
       inr {| http_status := 500;
              json := inr {| error := None; items := None |} |})
    world.

(** The query has the parameter, with the empty string as its value. *)
Definition request_empty_token : Request :=
  {| searchParams := [("access_token", "")] |}.

(** The userinfo endpoint cannot be reached. *)
Definition world_userinfo_unreachable : World :=
  with_userinfo (fun _ _ => inl "fetch failed") world.

(** The subscriptions endpoint cannot be reached. *)
Definition world_subscriptions_unreachable : World :=
  with_subscriptions (fun _ _ => inl "fetch failed") world.

(** The subscriptions endpoint answers 403 with an error payload, which
    carries a record as well. *)
Definition world_quota_exceeded : World :=
  with_subscriptions
    (fun _ _ =>
       inr {| http_status := 403;
              json := inr {| error := Some quotaExceeded;
                             items := Some [subscription "UCa"] |} |})
    world.



(** Every search call is answered 500 with an error payload. *)
Definition world_all_channels_fail : World :=
  with_search
    (fun _ _ _ =>
       inr {| http_status := 500;
              json := inr {| error := Some backendError; items := None |} |})
    world.

(** The only subscription record has no snippet. *)
Definition world_no_channel_ids : World :=
  with_subscriptions
    (fun _ _ => okJson (itemsOnly [ {| Sub.snippet := None |} ])) world.

End Examples.

(** ** Worlds that differ in the status of the subscriptions response *)

Definition with_status {B} (st : Z) (f : Fetched B) : Fetched B :=
  match f with
  | inl msg => inl msg
  | inr r => inr {| http_status := st; json := json r |}
  end.

(** The world [w], the subscriptions endpoint answering every call with
    status [st] and the body it has in [w]. *)
Definition subscriptions_status (st : Z) (w : World) : World :=
  {| YOUTUBE_API_KEY := YOUTUBE_API_KEY w;
     userinfo := userinfo w;
     subscriptions := fun tr tok => with_status st (subscriptions w tr tok);
     search := search w;
     Date_now := Date_now w;
     Date_getTime := Date_getTime w |}.

(** ** Specification-level definitions *)

(** The fields of a raw record the sanitizer reads. *)
Definition rawVideoId (item : YouTubeVideo) : option string :=
  Raw.id item ?. Raw.videoId.
Definition rawThumbnail (item : YouTubeVideo) : option string :=
  Raw.snippet item ?. Raw.thumbnails ?. Raw.medium ?. Raw.url.
Definition rawTitle (item : YouTubeVideo) : option string :=
  Raw.snippet item ?. Raw.title.
Definition rawPublishedAt (item : YouTubeVideo) : option string :=
  Raw.snippet item ?. Raw.publishedAt.

(** A field is present when it is a non-empty string. *)
Definition present (o : option string) : Prop :=
  exists s, o = Some s /\ s <> "".

Module Spec.

(** The channel identifier of a subscription record, when it has one. *)
Definition channelIdentifier (sub : Subscription) : option string :=
  match Sub.snippet sub with
  | Some {| Sub.resourceId := Some {| Sub.channelId := Some c |} |} =>
      if String.eqb c "" then None else Some c
  | _ => None
  end.

(** Section 4.2: the identifiers of the records, those lacking one dropped,
    order preserved. *)
Fixpoint channelIdentifiers (subs : list Subscription) : list string :=
  match subs with
  | [] => []
  | sub :: rest =>
      match channelIdentifier sub with
      | Some c => c :: channelIdentifiers rest
      | None => channelIdentifiers rest
      end
  end.

(** Section 4.3: what one channel contributes.  A call that fails at the
    transport level, a non-success status and a payload with an error
    field all count as zero videos. *)
Definition contribution (w : World) (tr : Trace) (channelId : string)
  : list SanitizedVideo :=
  match search w tr (YOUTUBE_API_KEY w) channelId with
  | inl _ => []
  | inr response =>
      match json response with
      | inl _ => []
      | inr data =>
          if ok response && negb (is_Some (error data))
          then sanitizedVideos
                 (Date_now w (tr ++ [Search (YOUTUBE_API_KEY w) channelId]))
                 (items data)
          else []
      end
  end.

(** Sections 4.5 and 9: the concatenation, in channel order, of the
    contributions, written as a fold over the channel identifiers. *)
Fixpoint allVideos (w : World) (tr : Trace) (ids : list string)
  : list SanitizedVideo :=
  match ids with
  | [] => []
  | channelId :: rest =>
      contribution w tr channelId
        ++ allVideos w (tr ++ [Search (YOUTUBE_API_KEY w) channelId]) rest
  end.

(** [v] is in the batch of a search call that settled with a success
    status and a payload without an error field. *)
Definition from_succeeding_channel (w : World) (ids : list string)
    (v : SanitizedVideo) : Prop :=
  exists tr channelId response data,
    In channelId ids /\
    search w tr (YOUTUBE_API_KEY w) channelId = inr response /\
    ok response = true /\
    json response = inr data /\
    error data = None /\
    In v (sanitizedVideos
            (Date_now w (tr ++ [Search (YOUTUBE_API_KEY w) channelId]))
            (items data)).

(** The search call settles and its body is JSON. *)
Definition answers_json (w : World) (tr : Trace) (channelId : string)
  : Prop :=
  exists response data,
    search w tr (YOUTUBE_API_KEY w) channelId = inr response /\
    json response = inr data.

(** The publish timestamp of [v] parses to a time. *)
Definition timed (getTime : string -> option Z) (v : SanitizedVideo)
  : Prop :=
  getTime (publishedAt v) <> None.

(** Publish timestamps compared as numbers after parsing: [a] is not older
    than [b]. *)
Definition not_older (getTime : string -> option Z) (a b : SanitizedVideo)
  : Prop :=
  match getTime (publishedAt a), getTime (publishedAt b) with
  | Some ta, Some tb => tb <= ta
  | _, _ => False
  end.

(** [a] is older than [b], both timestamps being parsed. *)
Definition older (getTime : string -> option Z) (a b : SanitizedVideo)
  : Prop :=
  match getTime (publishedAt a), getTime (publishedAt b) with
  | Some ta, Some tb => ta < tb
  | _, _ => False
  end.

(** Section 3: a publish timestamp is an ISO-8601 string, one the platform
    parses to a time. *)
Definition parses (w : World) (s : string) : Prop :=
  Date_getTime w s <> None.

Definition timestamp_parses (w : World) (raw : YouTubeVideo) : Prop :=
  forall s, Raw.snippet raw ?. Raw.publishedAt = Some s -> s <> "" ->
            parses w s.

(** Every timestamp the handler can meet parses: those of the records the
    search endpoint returns and those of the clock. *)
Definition timestamps_parse (w : World) : Prop :=
  (forall tr i, parses w (Date_now w tr i)) /\
  (forall tr key channelId response data raws,
      search w tr key channelId = inr response ->
      json response = inr data ->
      items data = Some raws ->
      Forall (timestamp_parses w) raws).

End Spec.

(** ** Worlds whose answers do not depend on the calls made before *)

Definition history_free (w : World) : Prop :=
  (forall tr tr' tok, subscriptions w tr tok = subscriptions w tr' tok) /\
  (forall tr tr' k ch, search w tr k ch = search w tr' k ch) /\
  (forall tr tr' i, Date_now w tr i = Date_now w tr' i).

(** * Properties *)

Unset Implicit Arguments.

(** ** JavaScript operators *)

Lemma truthy_Some (o : option string) :
  truthy o = true <-> exists s, o = Some s /\ s <> "".
Proof.
  destruct o as [s|]; simpl.
  - destruct (String.eqb_spec s ""); simpl; split.
    + discriminate.
    + intros (s' & [= <-] & Hne). contradiction.
    + intros _. now exists s.
    + reflexivity.
  - split; [discriminate | intros (s & [=] & _)].
Qed.

Lemma or_else_present (o : option string) (d s : string) :
  o = Some s -> s <> "" -> or_else o d = s.
Proof.
  intros -> Hne. simpl. now destruct (String.eqb_spec s "").
Qed.

Lemma or_else_absent (o : option string) (d : string) :
  truthy o = false -> or_else o d = d.
Proof.
  destruct o as [s|]; simpl; [|reflexivity].
  now destruct (String.eqb s "").
Qed.

(** ** Channel identifiers *)

Lemma channelIds_spec (subs : list Subscription) :
  channelIds subs = Spec.channelIdentifiers subs.
Proof.
  unfold channelIds.
  induction subs as [|sub rest IH]; simpl; [reflexivity|].
  rewrite IH. unfold Spec.channelIdentifier.
  destruct sub as [[sn|]]; simpl; [|reflexivity].
  destruct sn as [[rid|] t]; simpl; [|reflexivity].
  destruct rid as [[c|]]; simpl; [|reflexivity].
  now destruct (String.eqb c "").
Qed.

Lemma filter_Boolean_length_le (l : list (option string)) :
  (length (filter_Boolean l) <= length l)%nat.
Proof.
  induction l as [|o l IH]; simpl; [lia|].
  destruct (truthy o); simpl; lia.
Qed.

Lemma channelIds_length_le (subs : list Subscription) :
  (length (channelIds subs) <= length subs)%nat.
Proof.
  unfold channelIds.
  etransitivity; [apply filter_Boolean_length_le|].
  now rewrite length_map.
Qed.

(** ** Sanitizer *)

Lemma keep_sanitize (now : string) (item : YouTubeVideo) :
  keep (sanitize now item) = true <->
  present (rawVideoId item) /\ present (rawThumbnail item).
Proof.
  unfold keep, videoId, thumbnail, sanitize, present; simpl.
  fold (rawVideoId item) (rawThumbnail item).
  rewrite andb_true_iff, <- !truthy_Some.
  assert (E : forall o, negb (String.eqb (or_else o "") "") = truthy o).
  { intros [s|]; simpl; [|reflexivity].
    destruct (String.eqb s "") eqn:Es; simpl; [reflexivity | now rewrite Es]. }
  now rewrite !E.
Qed.

Lemma keep_nonempty (v : SanitizedVideo) :
  keep v = true <-> videoId v <> "" /\ thumbnail v <> "".
Proof.
  unfold keep. rewrite andb_true_iff, !negb_true_iff.
  now rewrite <- !not_true_iff_false, !String.eqb_eq.
Qed.

Lemma In_map_from {A B} (f : nat -> A -> B) (l : list A) (i : nat) (b : B) :
  In b (map_from f i l) <->
  exists k a, nth_error l k = Some a /\ b = f (i + k)%nat a.
Proof.
  revert i. induction l as [|a l IH]; intros i; simpl.
  - split; [intros [] | intros (k & a & H & _); now destruct k].
  - rewrite IH. split.
    + intros [<- | (k & a' & Hk & ->)].
      * exists O, a. now rewrite Nat.add_0_r.
      * exists (S k), a'. now rewrite Nat.add_succ_r.
    + intros ([|k] & a' & Hk & ->); simpl in Hk.
      * injection Hk as ->. left. now rewrite Nat.add_0_r.
      * right. exists k, a'. now rewrite Nat.add_succ_r.
Qed.

(** What a batch holds: the sanitized form of every record that has both a
    video identifier and a thumbnail, and nothing else. *)
Lemma In_sanitizedVideos (now : nat -> string) (l : list YouTubeVideo)
    (v : SanitizedVideo) :
  In v (sanitizedVideos now (Some l)) <->
  exists k item, nth_error l k = Some item /\ v = sanitize (now k) item /\
                 present (rawVideoId item) /\ present (rawThumbnail item).
Proof.
  unfold sanitizedVideos. rewrite filter_In, In_map_from. split.
  - intros ((k & item & Hk & ->) & Hkeep). exists k, item.
    repeat split; auto; now apply keep_sanitize in Hkeep.
  - intros (k & item & Hk & -> & Hid & Hth). split.
    + now exists k, item.
    + apply keep_sanitize. now split.
Qed.

Lemma sanitizedVideos_keep (now : nat -> string)
    (items : option (list YouTubeVideo)) :
  Forall (fun v => keep v = true) (sanitizedVideos now items).
Proof.
  apply Forall_forall. intros v Hv. destruct items as [l|]; [|destruct Hv].
  unfold sanitizedVideos in Hv. now apply filter_In in Hv.
Qed.

(** ** Sort and limit *)

Section SortFacts.
Variable getTime : string -> option Z.

Lemma insert_Permutation (a : SanitizedVideo) (l : list SanitizedVideo) :
  Permutation (insert getTime a l) (a :: l).
Proof.
  induction l as [|b l IH]; simpl; [reflexivity|].
  destruct (stays_before getTime a b); [reflexivity|].
  rewrite IH. apply perm_swap.
Qed.

Lemma sort_Permutation (l : list SanitizedVideo) :
  Permutation (sort getTime l) l.
Proof.
  induction l as [|a l IH]; simpl; [reflexivity|].
  rewrite insert_Permutation. now constructor.
Qed.

(** The sort is stable: videos with the same timestamp keep their order. *)
Lemma stays_before_same (a b : SanitizedVideo) :
  publishedAt a = publishedAt b -> stays_before getTime a b = true.
Proof.
  unfold stays_before, compareFn. intros ->.
  destruct (getTime (publishedAt b)); [|reflexivity].
  apply Z.leb_le. lia.
Qed.

Lemma insert_stable (s : string) (a : SanitizedVideo)
    (l : list SanitizedVideo) :
  filter (fun v => String.eqb (publishedAt v) s) (insert getTime a l) =
  filter (fun v => String.eqb (publishedAt v) s) (a :: l).
Proof.
  induction l as [|b l IH]; [reflexivity|]. simpl insert.
  destruct (stays_before getTime a b) eqn:E; [reflexivity|].
  simpl in IH |- *. rewrite IH.
  destruct (String.eqb_spec (publishedAt a) s) as [Ha|_]; [|reflexivity].
  destruct (String.eqb_spec (publishedAt b) s) as [Hb|_]; [|reflexivity].
  rewrite stays_before_same in E by congruence. discriminate E.
Qed.

Lemma sort_stable (s : string) (l : list SanitizedVideo) :
  filter (fun v => String.eqb (publishedAt v) s) (sort getTime l) =
  filter (fun v => String.eqb (publishedAt v) s) l.
Proof.
  induction l as [|a l IH]; [reflexivity|].
  simpl sort. rewrite insert_stable. simpl. now rewrite IH.
Qed.

Lemma In_firstn {A} (n : nat) (l : list A) (x : A) :
  In x (firstn n l) -> In x l.
Proof.
  intros H. rewrite <- (firstn_skipn n l). apply in_or_app. now left.
Qed.

Lemma not_older_trans (a b c : SanitizedVideo) :
  Spec.not_older getTime a b -> Spec.not_older getTime b c ->
  Spec.not_older getTime a c.
Proof.
  unfold Spec.not_older.
  destruct (getTime (publishedAt a)), (getTime (publishedAt b)),
    (getTime (publishedAt c)); try tauto; lia.
Qed.

(** On parsed timestamps the comparator decides the order. *)
Lemma stays_before_true (a b : SanitizedVideo) :
  (Spec.timed getTime) a -> (Spec.timed getTime) b ->
  stays_before getTime a b = true -> Spec.not_older getTime a b.
Proof.
  unfold Spec.timed, stays_before, compareFn, Spec.not_older.
  destruct (getTime (publishedAt a)), (getTime (publishedAt b));
    try tauto. intros _ _ H. apply Z.leb_le in H. lia.
Qed.

Lemma stays_before_false (a b : SanitizedVideo) :
  stays_before getTime a b = false -> Spec.not_older getTime b a.
Proof.
  unfold stays_before, compareFn, Spec.not_older.
  destruct (getTime (publishedAt a)), (getTime (publishedAt b));
    try discriminate. intros H. apply Z.leb_gt in H. lia.
Qed.

Lemma insert_sorted (a : SanitizedVideo) (l : list SanitizedVideo) :
  (Spec.timed getTime) a -> Forall (Spec.timed getTime) l ->
  StronglySorted (Spec.not_older getTime) l ->
  StronglySorted (Spec.not_older getTime) (insert getTime a l).
Proof.
  intros Ha Hl Hs. induction Hs as [|b l Hs IH Hb]; simpl.
  - repeat constructor.
  - inversion Hl as [|? ? Hb' Hl']; subst.
    destruct (stays_before getTime a b) eqn:E.
    + apply stays_before_true in E; auto.
      constructor; [now constructor|].
      constructor; [assumption|].
      eapply Forall_impl; [|exact Hb].
      intros c Hc. now apply not_older_trans with b.
    + apply stays_before_false in E.
      constructor; [now apply IH|].
      rewrite insert_Permutation. now constructor.
Qed.

Lemma sort_timed (l : list SanitizedVideo) :
  Forall (Spec.timed getTime) l -> Forall (Spec.timed getTime) (sort getTime l).
Proof.
  intros H. now rewrite sort_Permutation.
Qed.

(** When every timestamp parses the sorted array runs from the newest
    video to the oldest. *)
Lemma sort_sorted (l : list SanitizedVideo) :
  Forall (Spec.timed getTime) l ->
  StronglySorted (Spec.not_older getTime) (sort getTime l).
Proof.
  induction 1 as [|a l Ha Hl IH]; simpl; [constructor|].
  apply insert_sorted; auto. now apply sort_timed.
Qed.

Lemma StronglySorted_firstn {A} (R : A -> A -> Prop) (n : nat) (l : list A) :
  StronglySorted R l -> StronglySorted R (firstn n l).
Proof.
  intros H. revert n. induction H as [|a l Hs IH Ha]; intros [|n]; simpl;
    try constructor; auto.
  apply Forall_forall. intros x Hx. apply In_firstn in Hx.
  revert x Hx. now apply Forall_forall.
Qed.

Lemma sortedVideos_length (l : list SanitizedVideo) :
  (length (sortedVideos getTime l) <= 10)%nat.
Proof.
  unfold sortedVideos. apply firstn_le_length.
Qed.

Lemma sortedVideos_incl (l : list SanitizedVideo) (v : SanitizedVideo) :
  In v (sortedVideos getTime l) -> In v l.
Proof.
  unfold sortedVideos. intros H. apply In_firstn in H.
  now apply (Permutation_in v (sort_Permutation l)).
Qed.
End SortFacts.

(** ** The per-channel loop *)

Section LoopFacts.
Variable w : World.

(** A loop that completes has issued one search call per channel, in
    order, and has appended the contribution of every channel. *)
Lemma for_channelIds_Normal (ids : list string) :
  forall allVideos tr result tr',
    for_channelIds w ids allVideos tr = (Normal result, tr') ->
    result = allVideos ++ Spec.allVideos w tr ids /\
    tr' = tr ++ map (Search (YOUTUBE_API_KEY w)) ids.
Proof.
  induction ids as [|ch rest IH]; intros acc tr result tr' H; simpl in *.
  - injection H as <- <-. now rewrite !app_nil_r.
  - unfold bind, fetch, response_json, Spec.contribution in *.
    destruct (search w tr (YOUTUBE_API_KEY w) ch) as [msg|response];
      [discriminate|].
    unfold throw, ret in H.
    destruct (json response) as [msg|data]; [discriminate|].
    destruct (ok response); simpl in H |- *.
    + destruct (error data); simpl in H |- *.
      * apply IH in H as [-> ->]. now rewrite <- app_assoc.
      * unfold clock in H. apply IH in H as [-> ->].
        now rewrite <- !app_assoc.
    + apply IH in H as [-> ->]. now rewrite <- app_assoc.
Qed.

(** The loop completes whenever every search call settles with a JSON
    body, whatever its status and whatever the payload holds. *)
Lemma for_channelIds_completes (ids : list string) :
  forall allVideos tr,
    (forall tr0 ch, In ch ids -> Spec.answers_json w tr0 ch) ->
    for_channelIds w ids allVideos tr =
      (Normal (allVideos ++ Spec.allVideos w tr ids),
       tr ++ map (Search (YOUTUBE_API_KEY w)) ids).
Proof.
  induction ids as [|ch rest IH]; intros acc tr Hjson; simpl.
  - unfold ret. now rewrite !app_nil_r.
  - destruct (Hjson tr ch (or_introl eq_refl)) as (response & data & Hs & Hj).
    unfold bind, fetch, response_json, Spec.contribution.
    rewrite Hs, Hj. unfold ret.
    assert (Hrest : forall tr0 c, In c rest -> Spec.answers_json w tr0 c)
      by (intros; apply Hjson; now right).
    destruct (ok response); simpl.
    + destruct (error data); simpl.
      * rewrite IH by assumption. now rewrite <- app_assoc.
      * unfold clock. rewrite IH by assumption. now rewrite <- !app_assoc.
    + rewrite IH by assumption. now rewrite <- app_assoc.
Qed.

(** One failing channel is skipped: the loop goes on with the next
    channel and the array is as it was. *)
Lemma for_channelIds_skip (ch : string) (rest : list string)
    (allVideos : list SanitizedVideo) (tr : Trace)
    (response : FetchResponse (Payload YouTubeVideo))
    (data : Payload YouTubeVideo) :
  search w tr (YOUTUBE_API_KEY w) ch = inr response ->
  json response = inr data ->
  ok response = false \/ error data <> None ->
  for_channelIds w (ch :: rest) allVideos tr =
    for_channelIds w rest allVideos (tr ++ [Search (YOUTUBE_API_KEY w) ch]).
Proof.
  intros Hs Hj Hfail. simpl. unfold bind, fetch, response_json.
  fold (YOUTUBE_API_KEY w). rewrite Hs, Hj. unfold ret.
  destruct Hfail as [-> | He]; [reflexivity|].
  destruct (error data); [|contradiction].
  simpl. now rewrite orb_true_r.
Qed.

(** Whatever happens, the loop issues search calls only. *)
Lemma for_channelIds_trace (ids : list string) :
  forall allVideos tr c tr',
    for_channelIds w ids allVideos tr = (c, tr') ->
    exists n, tr' = tr ++ map (Search (YOUTUBE_API_KEY w)) (firstn n ids).
Proof.
  induction ids as [|ch rest IH]; intros acc tr c tr' H; simpl in H.
  - injection H as _ <-. exists O. now rewrite app_nil_r.
  - unfold bind, fetch, response_json in H.
    assert (Hstep : forall acc', for_channelIds w rest acc'
              (tr ++ [Search (YOUTUBE_API_KEY w) ch]) = (c, tr') ->
            exists n, tr' = tr ++ map (Search (YOUTUBE_API_KEY w))
                               (firstn n (ch :: rest))).
    { intros acc' H'. apply IH in H' as [n ->]. exists (S n).
      simpl. now rewrite <- app_assoc. }
    destruct (search w tr (YOUTUBE_API_KEY w) ch) as [msg|response].
    + injection H as _ <-. now exists 1%nat.
    + unfold throw, ret in H. destruct (json response) as [msg|data].
      * injection H as _ <-. now exists 1%nat.
      * destruct (negb (ok response) || is_Some (error data));
          [|unfold bind, clock in H]; eauto.
Qed.

Lemma contribution_origin (tr : Trace) (ch : string) (v : SanitizedVideo) :
  In v (Spec.contribution w tr ch) ->
  Spec.from_succeeding_channel w [ch] v.
Proof.
  unfold Spec.contribution.
  destruct (search w tr (YOUTUBE_API_KEY w) ch) as [msg|response] eqn:Hs; [intros []|].
  destruct (json response) as [msg|data] eqn:Hj; [intros []|].
  destruct (ok response) eqn:Hok; [|intros []].
  destruct (error data) eqn:He; [intros []|]. simpl. intros Hv.
  exists tr, ch, response, data.
  repeat split; auto. now left.
Qed.

Lemma allVideos_origin (ids : list string) :
  forall tr v,
    In v (Spec.allVideos w tr ids) -> Spec.from_succeeding_channel w ids v.
Proof.
  induction ids as [|ch rest IH]; intros tr v Hv; simpl in Hv; [destruct Hv|].
  apply in_app_or in Hv as [Hv | Hv].
  - apply contribution_origin in Hv
      as (tr0 & c & r & d & [<- | []] & H). exists tr0, ch, r, d.
    split; [now left | exact H].
  - apply IH in Hv as (tr0 & c & r & d & Hin & H). exists tr0, c, r, d.
    split; [now right | exact H].
Qed.
End LoopFacts.

(** ** Building a response *)

Lemma NextResponse_json_Normal (b : Body) (init : ResponseInit)
    (tr tr' : Trace) (r : NextResponse) :
  NextResponse_json b init tr = (Normal r, tr') ->
  body r = b /\ headers r = init_headers init /\ tr' = tr /\
  status r = match init_status init with Some s => s | None => 200 end.
Proof.
  unfold NextResponse_json, ret, throw.
  destruct (_ && _); [|discriminate].
  destruct (null_body_status _); [discriminate|].
  intros [= <- <-]. now repeat split.
Qed.

(** ** The stages after the token check *)

Section StageFacts.
Variable w : World.
Variable hs : list (string * string).


(** A response with items comes from a subscription payload without an
    error field and with at least one record, after a loop that
    completed. *)
Lemma subscribedVideos_items (tok : string) (tr tr' : Trace)
    (r : NextResponse) (its : list SanitizedVideo) (n : nat) :
  subscribedVideos w {| init_status := None; init_headers := hs |} tok tr =
    (Normal r, tr') ->
  body r = ItemsBody its n ->
  exists sr data subs,
    subscriptions w tr tok = inr sr /\
    json sr = inr data /\
    error data = None /\
    items data = Some subs /\
    subs <> [] /\
    its = sortedVideos (Date_getTime w)
            (Spec.allVideos w (tr ++ [Subscriptions tok]) (channelIds subs)) /\
    n = length (channelIds subs) /\
    tr' = (tr ++ [Subscriptions tok])
            ++ map (Search (YOUTUBE_API_KEY w)) (channelIds subs) /\
    status r = 200 /\
    headers r = hs.
Proof.
  unfold subscribedVideos, bind, fetch, response_json.
  destruct (subscriptions w tr tok) as [msg|sr]; [discriminate|].
  unfold throw, ret. destruct (json sr) as [msg|data] eqn:Hj; [discriminate|].
  destruct (error data) as [e|] eqn:He.
  { intros H Hb. apply NextResponse_json_Normal in H as (Hb' & _).
    rewrite Hb in Hb'. discriminate Hb'. }
  destruct (items data) as [[|sub subs]|] eqn:Hi;
    try (unfold NextResponse_json, ret; simpl;
         intros [= <- _] Hb; discriminate Hb).
  destruct (for_channelIds w (channelIds (sub :: subs)) []
              (tr ++ [Subscriptions tok])) as [[all|e] tr1] eqn:Hloop;
    [|discriminate].
  apply for_channelIds_Normal in Hloop as [-> ->].
  unfold NextResponse_json, ret; simpl. intros [= <- <-] [= <- <-].
  exists sr, data, (sub :: subs). repeat split; auto. discriminate.
Qed.

(** The upstream-error response is built from the [error] field of the
    subscription payload, and from nothing else. *)
Lemma subscribedVideos_upstream (tok : string) (tr tr' : Trace)
    (r : NextResponse) (msg : string) (e : ApiError) :
  subscribedVideos w {| init_status := None; init_headers := hs |} tok tr =
    (Normal r, tr') ->
  body r = ErrorBody msg (Some (DetailsError e)) ->
  exists sr data,
    subscriptions w tr tok = inr sr /\
    json sr = inr data /\
    error data = Some e /\
    msg = or_else (message e) "YouTube API Error" /\
    status r = or_else_Z (code e) 400 /\
    tr' = tr ++ [Subscriptions tok].
Proof.
  unfold subscribedVideos, bind, fetch, response_json.
  destruct (subscriptions w tr tok) as [m|sr]; [discriminate|].
  unfold throw, ret. destruct (json sr) as [m|data] eqn:Hj; [discriminate|].
  destruct (error data) as [e'|] eqn:He.
  { intros H Hb. apply NextResponse_json_Normal in H as (Hb' & _ & -> & Hst).
    rewrite Hb in Hb'. injection Hb' as -> ->.
    exists sr, data. now repeat split. }
  destruct (items data) as [[|sub subs]|] eqn:Hi;
    try (unfold NextResponse_json, ret; simpl;
         intros [= <- _] Hb; discriminate Hb).
  destruct (for_channelIds w _ _ _) as [[all|e'] tr1]; [|discriminate].
  unfold NextResponse_json, ret; simpl. intros [= <- _] Hb. discriminate Hb.
Qed.

(** No record in the subscription payload: 404, and the run stops. *)
Lemma subscribedVideos_empty (tok : string) (tr : Trace)
    (sr : FetchResponse (Payload Subscription)) (data : Payload Subscription) :
  subscriptions w tr tok = inr sr ->
  json sr = inr data ->
  error data = None ->
  items data = None \/ items data = Some [] ->
  subscribedVideos w {| init_status := None; init_headers := hs |} tok tr =
    (Normal {| status := 404; headers := [];
               body := ErrorBody "No subscriptions found" None |},
     tr ++ [Subscriptions tok]).
Proof.
  intros Hs Hj He Hi. unfold subscribedVideos, bind, fetch, response_json.
  rewrite Hs, Hj. unfold ret. rewrite He.
  now destruct Hi as [-> | ->].
Qed.

(** Records in the subscription payload: the loop runs over their channel
    identifiers. *)
Lemma subscribedVideos_records (tok : string) (tr : Trace)
    (sr : FetchResponse (Payload Subscription)) (data : Payload Subscription)
    (sub : Subscription) (subs : list Subscription) :
  subscriptions w tr tok = inr sr ->
  json sr = inr data ->
  error data = None ->
  items data = Some (sub :: subs) ->
  subscribedVideos w {| init_status := None; init_headers := hs |} tok tr =
    (allVideos <- for_channelIds w (channelIds (sub :: subs)) [] ;;
     NextResponse_json
       (ItemsBody (sortedVideos (Date_getTime w) allVideos)
          (length (channelIds (sub :: subs))))
       {| init_status := None; init_headers := hs |}) (tr ++ [Subscriptions tok]).
Proof.
  intros Hs Hj He Hi. unfold subscribedVideos.
  unfold bind at 1 2. unfold fetch, response_json.
  rewrite Hs, Hj. unfold ret. now rewrite He, Hi.
Qed.
End StageFacts.

(** ** The handlers *)

Section HandlerFacts.
Variable w : World.
Variable request : Request.
Variable tok : string.
Hypothesis Htoken : accessToken request = Some tok.
Hypothesis Hnonempty : tok <> "".

Lemma truthy_token : truthy (accessToken request) = true.
Proof. apply truthy_Some. now exists tok. Qed.

Lemma or_else_token : or_else (accessToken request) "" = tok.
Proof. now apply or_else_present. Qed.

(** route.ts, a token being given: the stages run inside the [try]. *)
Lemma RouteTs_GET_token :
  run (RouteTs.GET w request) =
    try_catch
      (subscribedVideos w {| init_status := None; init_headers := [] |} tok)
      (fun error =>
         NextResponse_json
           (ErrorBody "Internal server error" (Some (DetailsMessage error)))
           {| init_status := Some 500; init_headers := [] |}) [].
Proof.
  unfold run, RouteTs.GET. fold (accessToken request).
  now rewrite truthy_token, or_else_token.
Qed.

(** part_000, a token being given and the userinfo call failing. *)
Lemma Part000_GET_userinfo_rejects (msg : string) :
  userinfo w [] tok = inl msg ->
  run (Part000.GET w request) =
    (Normal {| status := 500; headers := cacheHeaders;
               body := ErrorBody "Internal server error"
                         (Some (DetailsMessage (FetchFailed msg))) |},
     [UserInfo tok]).
Proof.
  intros Hu. unfold run, Part000.GET. fold (accessToken request).
  rewrite truthy_token, or_else_token. simpl.
  unfold try_catch, bind, fetch. now rewrite Hu.
Qed.

(** part_000, a token being given and accepted: the stages run inside the
    [try], after the userinfo call. *)
Lemma Part000_GET_token (ur : FetchResponse unit) :
  userinfo w [] tok = inr ur ->
  ok ur = true ->
  run (Part000.GET w request) =
    try_catch
      (subscribedVideos w
         {| init_status := None; init_headers := cacheHeaders |} tok)
      (fun error =>
         NextResponse_json
           (ErrorBody "Internal server error" (Some (DetailsMessage error)))
           {| init_status := Some 500; init_headers := cacheHeaders |})
      [UserInfo tok].
Proof.
  intros Hu Hok. unfold run, Part000.GET. fold (accessToken request).
  rewrite truthy_token, or_else_token. simpl.
  unfold try_catch at 1. unfold bind at 1. unfold fetch at 1.
  rewrite Hu, Hok. reflexivity.
Qed.
End HandlerFacts.

Lemma try_catch_cases (m : M NextResponse) (hs : list (string * string))
    (tr tr' : Trace) (c : Completion NextResponse) :
  try_catch m
    (fun error =>
       NextResponse_json
         (ErrorBody "Internal server error" (Some (DetailsMessage error)))
         {| init_status := Some 500; init_headers := hs |}) tr = (c, tr') ->
  (exists r, c = Normal r /\ m tr = (Normal r, tr')) \/
  (exists e, m tr = (Throw e, tr') /\
             c = Normal {| status := 500; headers := hs;
                           body := ErrorBody "Internal server error"
                                     (Some (DetailsMessage e)) |}).
Proof.
  unfold try_catch. destruct (m tr) as [[r|e] tr1].
  - intros [= <- <-]. left. now exists r.
  - unfold NextResponse_json, ret; simpl. intros [= <- <-]. right. now exists e.
Qed.

(** The missing-token response of part_000, for an absent parameter and for
    an empty one alike. *)
Lemma Part000_GET_no_token (w : World) (request : Request) :
  truthy (accessToken request) = false ->
  run (Part000.GET w request) =
    (Normal {| status := 401; headers := cacheHeaders;
               body := ErrorBody "Access token required" None |}, []).
Proof.
  intros H. unfold run, Part000.GET. fold (accessToken request).
  now rewrite H.
Qed.

Lemma RouteTs_GET_no_token (w : World) (request : Request) :
  truthy (accessToken request) = false ->
  run (RouteTs.GET w request) =
    (Normal {| status := 401; headers := [];
               body := ErrorBody "Access token required" None |}, []).
Proof.
  intros H. unfold run, RouteTs.GET. fold (accessToken request).
  now rewrite H.
Qed.

(** The rejected-token response of part_000. *)
Lemma Part000_GET_rejected (w : World) (request : Request) (tok : string)
    (ur : FetchResponse unit) :
  accessToken request = Some tok -> tok <> "" ->
  userinfo w [] tok = inr ur ->
  ok ur = false ->
  run (Part000.GET w request) =
    (Normal {| status := 401; headers := cacheHeaders;
               body := ErrorBody "Invalid or expired access token" None |},
     [UserInfo tok]).
Proof.
  intros Ht Hne Hu Hok. unfold run, Part000.GET. fold (accessToken request).
  rewrite (truthy_token request tok Ht Hne), (or_else_token request tok Ht Hne). simpl.
  unfold try_catch, bind, fetch. now rewrite Hu, Hok.
Qed.

(** Where a part_000 response with items comes from. *)
Lemma Part000_GET_items (w : World) (request : Request) (r : NextResponse)
    (tr : Trace) (its : list SanitizedVideo) (n : nat) :
  run (Part000.GET w request) = (Normal r, tr) ->
  body r = ItemsBody its n ->
  exists tok sr data subs,
    accessToken request = Some tok /\
    subscriptions w [UserInfo tok] tok = inr sr /\
    json sr = inr data /\
    items data = Some subs /\
    its = sortedVideos (Date_getTime w)
            (Spec.allVideos w [UserInfo tok; Subscriptions tok]
               (channelIds subs)) /\
    n = length (channelIds subs) /\
    tr = [UserInfo tok; Subscriptions tok]
           ++ map (Search (YOUTUBE_API_KEY w)) (channelIds subs) /\
    status r = 200 /\
    headers r = cacheHeaders.
Proof.
  intros Hrun Hbody.
  destruct (truthy (accessToken request)) eqn:Ht.
  2:{ rewrite Part000_GET_no_token in Hrun by assumption.
      injection Hrun as <- _. discriminate Hbody. }
  apply truthy_Some in Ht as (tok & Ht & Hne).
  destruct (userinfo w [] tok) as [msg|ur] eqn:Hu.
  { rewrite (Part000_GET_userinfo_rejects w request tok Ht Hne msg Hu) in Hrun.
    injection Hrun as <- _. discriminate Hbody. }
  destruct (ok ur) eqn:Hok.
  2:{ rewrite (Part000_GET_rejected w request tok ur Ht Hne Hu Hok) in Hrun.
      injection Hrun as <- _. discriminate Hbody. }
  rewrite (Part000_GET_token w request tok Ht Hne ur Hu Hok) in Hrun.
  apply try_catch_cases in Hrun as [(r' & [= <-] & Hm) | (e & _ & [= ->])];
    [|discriminate Hbody].
  destruct (subscribedVideos_items _ _ _ _ _ _ _ _ Hm Hbody)
    as (sr & data & subs & Hs & Hj & _ & Hi & _ & -> & -> & -> & Hst & Hh).
  exists tok, sr, data, subs. now repeat split.
Qed.

(** Where a route.ts response with items comes from. *)
Lemma RouteTs_GET_items (w : World) (request : Request) (r : NextResponse)
    (tr : Trace) (its : list SanitizedVideo) (n : nat) :
  run (RouteTs.GET w request) = (Normal r, tr) ->
  body r = ItemsBody its n ->
  exists tok sr data subs,
    accessToken request = Some tok /\
    subscriptions w [] tok = inr sr /\
    json sr = inr data /\
    items data = Some subs /\
    its = sortedVideos (Date_getTime w)
            (Spec.allVideos w [Subscriptions tok] (channelIds subs)) /\
    n = length (channelIds subs) /\
    tr = [Subscriptions tok]
           ++ map (Search (YOUTUBE_API_KEY w)) (channelIds subs) /\
    status r = 200.
Proof.
  intros Hrun Hbody.
  destruct (truthy (accessToken request)) eqn:Ht.
  2:{ rewrite RouteTs_GET_no_token in Hrun by assumption.
      injection Hrun as <- _. discriminate Hbody. }
  apply truthy_Some in Ht as (tok & Ht & Hne).
  rewrite (RouteTs_GET_token w request tok Ht Hne) in Hrun.
  apply try_catch_cases in Hrun as [(r' & [= <-] & Hm) | (e & _ & [= ->])];
    [|discriminate Hbody].
  destruct (subscribedVideos_items _ _ _ _ _ _ _ _ Hm Hbody)
    as (sr & data & subs & Hs & Hj & _ & Hi & _ & -> & -> & -> & Hst & Hh).
  exists tok, sr, data, subs. now repeat split.
Qed.

(** Neither handler lets an exception escape. *)
Lemma Part000_GET_returns (w : World) (request : Request) :
  exists r tr, run (Part000.GET w request) = (Normal r, tr).
Proof.
  destruct (truthy (accessToken request)) eqn:Ht.
  2:{ rewrite Part000_GET_no_token by assumption. eauto. }
  apply truthy_Some in Ht as (tok & Ht & Hne).
  destruct (userinfo w [] tok) as [msg|ur] eqn:Hu.
  { rewrite (Part000_GET_userinfo_rejects w request tok Ht Hne msg Hu). eauto. }
  destruct (ok ur) eqn:Hok.
  2:{ rewrite (Part000_GET_rejected w request tok ur Ht Hne Hu Hok). eauto. }
  rewrite (Part000_GET_token w request tok Ht Hne ur Hu Hok).
  unfold try_catch. destruct (subscribedVideos _ _ _ _) as [[r|e] tr];
    unfold NextResponse_json, ret; simpl; eauto.
Qed.

Lemma RouteTs_GET_returns (w : World) (request : Request) :
  exists r tr, run (RouteTs.GET w request) = (Normal r, tr).
Proof.
  destruct (truthy (accessToken request)) eqn:Ht.
  2:{ rewrite RouteTs_GET_no_token by assumption. eauto. }
  apply truthy_Some in Ht as (tok & Ht & Hne).
  rewrite (RouteTs_GET_token w request tok Ht Hne).
  unfold try_catch. destruct (subscribedVideos _ _ _ _) as [[r|e] tr];
    unfold NextResponse_json, ret; simpl; eauto.
Qed.

(** ** Timestamps of the collected videos *)

Lemma sanitize_timed (w : World) (now : string) (item : YouTubeVideo) :
  Spec.parses w now ->
  Spec.timestamp_parses w item ->
  Spec.timed (Date_getTime w) (sanitize now item).
Proof.
  intros Hnow Hitem. unfold Spec.timed, publishedAt, sanitize; simpl.
  destruct (truthy (Raw.snippet item ?. Raw.publishedAt)) eqn:Hp.
  - apply truthy_Some in Hp as (s & Hs & Hne).
    rewrite (or_else_present _ now s Hs Hne). now apply Hitem.
  - now rewrite or_else_absent.
Qed.

Lemma allVideos_timed (w : World) (tr : Trace) (ids : list string) :
  Spec.timestamps_parse w ->
  Forall (Spec.timed (Date_getTime w)) (Spec.allVideos w tr ids).
Proof.
  intros [Hclock Hsearch]. apply Forall_forall. intros v Hv.
  apply allVideos_origin in Hv
    as (tr0 & ch & response & data & _ & Hs & _ & Hj & _ & Hv).
  destruct (items data) as [raws|] eqn:Hi; [|destruct Hv].
  apply In_sanitizedVideos in Hv as (k & item & Hk & -> & _).
  apply sanitize_timed; [apply Hclock|].
  specialize (Hsearch tr0 _ ch response data raws Hs Hj Hi).
  rewrite Forall_forall in Hsearch. apply Hsearch.
  now apply nth_error_In with k.
Qed.

Lemma allVideos_keep (w : World) (tr : Trace) (ids : list string)
    (v : SanitizedVideo) :
  In v (Spec.allVideos w tr ids) ->
  exists now item,
    v = sanitize now item /\
    present (rawVideoId item) /\ present (rawThumbnail item).
Proof.
  intros Hv. apply allVideos_origin in Hv
    as (tr0 & ch & response & data & _ & _ & _ & _ & _ & Hv).
  destruct (items data) as [raws|] eqn:Hi; [|destruct Hv].
  apply In_sanitizedVideos in Hv as (k & item & _ & -> & Hid & Hth).
  eauto.
Qed.

(** * The claims *)

(** C1 as stated fails. A publish timestamp that does not parse makes the
    comparator return NaN, which counts as a tie with every other video:
    the three videos of the channel stay in upstream order, the oldest
    first and the newest last, as they do in V8, which finds the array to
    be one ascending run.  The items are not in order, even with the
    unparsed timestamp left out of the comparison. *)
Lemma unparseable_timestamp_breaks_order :
  exists r tr its n,
    run (Part000.GET Examples.world_unparseable_timestamp Examples.request) =
      (Normal r, tr) /\
    status r = 200 /\
    body r = ItemsBody its n /\
    map publishedAt its = [Examples.T4; "not-a-date"; Examples.T0] /\
    Examples.getTime Examples.T4 = Some 1709467200000 /\
    Examples.getTime "not-a-date" = None /\
    Examples.getTime Examples.T0 = Some 1709812800000 /\
    ~ Sorted (Spec.not_older Examples.getTime) its /\
    ~ StronglySorted (fun a b => ~ Spec.older Examples.getTime a b) its.
Proof.
  eexists _, _, _, _.
  split; [vm_compute; reflexivity|].
  repeat (split; [reflexivity|]). split.
  - intros H. inversion H as [|a l _ Hhd]; subst.
    inversion Hhd as [|b l' Hab]; subst. exact Hab.
  - intros H. inversion H as [|a l _ Hall]; subst.
    inversion Hall as [|b l' _ Hall']; subst.
    inversion Hall' as [|c l'' Hac _]; subst.
    apply Hac. vm_compute. reflexivity.
Qed.

(** C1, amended. Every response of the handler that carries items has
    status 200 and at most 10 items, the first 10 entries of the sorted
    concatenation of the videos the channels contributed; when every
    publish timestamp is a string the platform parses, the items run from
    the newest to the oldest, the timestamps being compared as numbers
    after parsing. *)
Theorem items_newest_first_at_most_10 (w : World) (request : Request)
    (r : NextResponse) (tr : Trace) (its : list SanitizedVideo) (n : nat) :
  run (Part000.GET w request) = (Normal r, tr) ->
  body r = ItemsBody its n ->
  status r = 200 /\
  (length its <= 10)%nat /\
  (exists tok sr data subs,
      accessToken request = Some tok /\
      subscriptions w [UserInfo tok] tok = inr sr /\
      json sr = inr data /\
      items data = Some subs /\
      let allVideos :=
        Spec.allVideos w [UserInfo tok; Subscriptions tok] (channelIds subs) in
      its = firstn 10 (sort (Date_getTime w) allVideos) /\
      Permutation (sort (Date_getTime w) allVideos) allVideos /\
      (Spec.timestamps_parse w ->
       StronglySorted (Spec.not_older (Date_getTime w))
         (sort (Date_getTime w) allVideos))) /\
  (Spec.timestamps_parse w ->
   StronglySorted (Spec.not_older (Date_getTime w)) its).
Proof.
  intros Hrun Hbody.
  destruct (Part000_GET_items w request r tr its n Hrun Hbody)
    as (tok & sr & data & subs & Ht & Hs & Hj & Hi & -> & _ & _ & Hst & _).
  assert (Hsorted : Spec.timestamps_parse w ->
            StronglySorted (Spec.not_older (Date_getTime w))
              (sort (Date_getTime w)
                 (Spec.allVideos w [UserInfo tok; Subscriptions tok]
                    (channelIds subs)))).
  { intros Hparse. apply sort_sorted. now apply allVideos_timed. }
  split; [exact Hst|]. split; [apply sortedVideos_length|]. split.
  - exists tok, sr, data, subs. repeat split; auto. apply sort_Permutation.
  - intros Hparse. now apply StronglySorted_firstn, Hsorted.
Qed.

Lemma timestamps_parse_example : Spec.timestamps_parse Examples.world.
Proof.
  split.
  - intros tr i. vm_compute. discriminate.
  - intros tr k ch response data raws Hs Hj Hi. simpl in Hs.
    assert (Hraws : raws = Examples.videosA \/ raws = Examples.videosB).
    { destruct (String.eqb ch "UCa"); [|destruct (String.eqb ch "UCb")];
        injection Hs as <-; simpl in Hj; injection Hj as <-;
        simpl in Hi; try discriminate; injection Hi as <-; auto. }
    destruct Hraws as [-> | ->]; repeat constructor;
      intros s [= <-] _; vm_compute; discriminate.
Qed.

Lemma items_newest_first_at_most_10_witness :
  exists r tr its n,
    run (Part000.GET Examples.world Examples.request) = (Normal r, tr) /\
    body r = ItemsBody its n /\
    map videoId its = ["b1"; "a1"; "a2"; "a3"; "b2"] /\
    status r = 200 /\
    (length its <= 10)%nat /\
    StronglySorted (Spec.not_older Examples.getTime) its.
Proof.
  eexists _, _, _, _.
  split; [vm_compute; reflexivity|].
  split; [reflexivity|].
  split; [reflexivity|].
  pose proof (items_newest_first_at_most_10 Examples.world
                Examples.request _ _ _ _ eq_refl eq_refl)
    as (Hst & Hlen & _ & Hsorted).
  exact (conj Hst (conj Hlen (Hsorted timestamps_parse_example))).
Defined.

(** C2. In every response of the handler that carries items, each video has
    a non-empty video identifier and a non-empty medium-thumbnail URL: it is
    the sanitized form of an upstream record that has both, and these are
    the strings of that record. *)
Theorem items_have_videoId_and_thumbnail (w : World) (request : Request)
    (r : NextResponse) (tr : Trace) (its : list SanitizedVideo) (n : nat) :
  run (Part000.GET w request) = (Normal r, tr) ->
  body r = ItemsBody its n ->
  Forall
    (fun v =>
       videoId v <> "" /\ thumbnail v <> "" /\
       exists now item,
         v = sanitize now item /\
         rawVideoId item = Some (videoId v) /\
         rawThumbnail item = Some (thumbnail v))
    its.
Proof.
  intros Hrun Hbody.
  destruct (Part000_GET_items w request r tr its n Hrun Hbody)
    as (tok & sr & data & subs & _ & _ & _ & _ & -> & _).
  apply Forall_forall. intros v Hv.
  apply sortedVideos_incl, allVideos_keep in Hv
    as (now & item & -> & (vid & Hvid & Hne) & (th & Hth & Hne')).
  assert (Ev : videoId (sanitize now item) = vid)
    by exact (or_else_present _ "" vid Hvid Hne).
  assert (Et : thumbnail (sanitize now item) = th)
    by exact (or_else_present _ "" th Hth Hne').
  rewrite Ev, Et. repeat split; auto.
  exists now, item. now rewrite Hvid, Hth.
Qed.

Lemma items_have_videoId_and_thumbnail_witness :
  exists r tr its n,
    run (Part000.GET Examples.world Examples.request) = (Normal r, tr) /\
    body r = ItemsBody its n /\
    length its = 5%nat /\
    Forall
      (fun v =>
         videoId v <> "" /\ thumbnail v <> "" /\
         exists now item,
           v = sanitize now item /\
           rawVideoId item = Some (videoId v) /\
           rawThumbnail item = Some (thumbnail v))
      its.
Proof.
  eexists _, _, _, _.
  split; [vm_compute; reflexivity|].
  split; [reflexivity|].
  split; [reflexivity|].
  exact (items_have_videoId_and_thumbnail Examples.world Examples.request
           _ _ _ _ eq_refl eq_refl).
Defined.

(** The same holds of route.ts. *)
Lemma RouteTs_items_nonempty_fields (w : World)
    (request : Request) (r : NextResponse) (tr : Trace)
    (its : list SanitizedVideo) (n : nat) :
  run (RouteTs.GET w request) = (Normal r, tr) ->
  body r = ItemsBody its n ->
  Forall (fun v => videoId v <> "" /\ thumbnail v <> "") its.
Proof.
  intros Hrun Hbody.
  destruct (RouteTs_GET_items w request r tr its n Hrun Hbody)
    as (tok & sr & data & subs & _ & _ & _ & _ & -> & _).
  apply Forall_forall. intros v Hv.
  apply sortedVideos_incl, allVideos_keep in Hv
    as (now & item & -> & Hid & Hth).
  apply keep_nonempty, keep_sanitize. now split.
Qed.

Lemma RouteTs_items_sorted (w : World) (request : Request)
    (r : NextResponse) (tr : Trace) (its : list SanitizedVideo) (n : nat) :
  Spec.timestamps_parse w ->
  run (RouteTs.GET w request) = (Normal r, tr) ->
  body r = ItemsBody its n ->
  status r = 200 /\
  StronglySorted (Spec.not_older (Date_getTime w)) its /\
  (length its <= 10)%nat.
Proof.
  intros Hparse Hrun Hbody.
  destruct (RouteTs_GET_items w request r tr its n Hrun Hbody)
    as (tok & sr & data & subs & _ & _ & _ & _ & -> & _ & _ & Hst).
  repeat split; [exact Hst | | apply sortedVideos_length].
  apply StronglySorted_firstn, sort_sorted. now apply allVideos_timed.
Qed.

(** C8. In every response of the handler that carries items,
    [subscriptionCount] is the number of channel identifiers extracted from
    the subscription records, the records without an identifier dropped and
    the order kept; it is the number of search calls issued, whatever the
    number of videos. *)
Theorem subscriptionCount_counts_channels (w : World) (request : Request)
    (r : NextResponse) (tr : Trace) (its : list SanitizedVideo) (n : nat) :
  run (Part000.GET w request) = (Normal r, tr) ->
  body r = ItemsBody its n ->
  exists tok sr data subs,
    accessToken request = Some tok /\
    subscriptions w [UserInfo tok] tok = inr sr /\
    json sr = inr data /\
    items data = Some subs /\
    channelIds subs = Spec.channelIdentifiers subs /\
    n = length (Spec.channelIdentifiers subs) /\
    filter is_search tr =
      map (Search (YOUTUBE_API_KEY w)) (Spec.channelIdentifiers subs).
Proof.
  intros Hrun Hbody.
  destruct (Part000_GET_items w request r tr its n Hrun Hbody)
    as (tok & sr & data & subs & Ht & Hs & Hj & Hi & _ & -> & -> & _).
  exists tok, sr, data, subs. rewrite <- channelIds_spec.
  repeat split; auto. simpl. clear.
  induction (channelIds subs) as [|c l IH]; simpl; [reflexivity|].
  now rewrite IH.
Qed.

Lemma subscriptionCount_counts_channels_witness :
  exists r tr its n,
    run (Part000.GET Examples.world Examples.request) = (Normal r, tr) /\
    body r = ItemsBody its n /\
    length its = 5%nat /\
    n = 2%nat /\
    exists tok sr data subs,
      accessToken Examples.request = Some tok /\
      subscriptions Examples.world [UserInfo tok] tok = inr sr /\
      json sr = inr data /\
      items data = Some subs /\
      channelIds subs = Spec.channelIdentifiers subs /\
      n = length (Spec.channelIdentifiers subs) /\
      filter is_search tr =
        map (Search (Some "server-key")) (Spec.channelIdentifiers subs).
Proof.
  eexists _, _, _, _.
  split; [vm_compute; reflexivity|].
  split; [reflexivity|].
  split; [reflexivity|].
  split; [reflexivity|].
  exact (subscriptionCount_counts_channels Examples.world Examples.request
           _ _ _ _ eq_refl eq_refl).
Defined.

Lemma RouteTs_count_is_channelIds (w : World)
    (request : Request) (r : NextResponse) (tr : Trace)
    (its : list SanitizedVideo) (n : nat) :
  run (RouteTs.GET w request) = (Normal r, tr) ->
  body r = ItemsBody its n ->
  exists tok sr data subs,
    accessToken request = Some tok /\
    subscriptions w [] tok = inr sr /\
    json sr = inr data /\
    items data = Some subs /\
    n = length (Spec.channelIdentifiers subs).
Proof.
  intros Hrun Hbody.
  destruct (RouteTs_GET_items w request r tr its n Hrun Hbody)
    as (tok & sr & data & subs & Ht & Hs & Hj & Hi & _ & -> & _).
  exists tok, sr, data, subs. now rewrite <- channelIds_spec.
Qed.

Lemma sanitizedVideos_length_from (now : nat -> string) (l : list YouTubeVideo) :
  forall i,
    length (filter keep (map_from (fun k item => sanitize (now k) item) i l)) =
    length (filter
              (fun item => truthy (rawVideoId item) && truthy (rawThumbnail item))
              l).
Proof.
  induction l as [|item l IH]; intros i; simpl; [reflexivity|].
  assert (E : keep (sanitize (now i) item) =
              truthy (rawVideoId item) && truthy (rawThumbnail item)).
  { apply eq_true_iff_eq.
    now rewrite keep_sanitize, andb_true_iff, !truthy_Some. }
  rewrite E. destruct (_ && _); simpl; now rewrite IH.
Qed.

(** C7. Sanitizing a raw record puts the empty string where the title is
    missing and the current time where the publish timestamp is missing, and
    keeps the fields that are there.  The record is kept exactly when it has
    a video identifier and a thumbnail URL: a record with both is in the
    batch whatever its title, and the batch has as many videos as there are
    records with both. *)
Theorem sanitize_defaults_and_drop (now : nat -> string)
    (l : list YouTubeVideo) (k : nat) (item : YouTubeVideo) :
  nth_error l k = Some item ->
  let v := sanitize (now k) item in
  (forall s, rawTitle item = Some s -> s <> "" -> title v = s) /\
  (truthy (rawTitle item) = false -> title v = "") /\
  (forall s, rawPublishedAt item = Some s -> s <> "" -> publishedAt v = s) /\
  (truthy (rawPublishedAt item) = false -> publishedAt v = now k) /\
  (keep v = true <->
   present (rawVideoId item) /\ present (rawThumbnail item)) /\
  (present (rawVideoId item) -> present (rawThumbnail item) ->
   In v (sanitizedVideos now (Some l))) /\
  length (sanitizedVideos now (Some l)) =
    length (filter
              (fun raw => truthy (rawVideoId raw) && truthy (rawThumbnail raw))
              l).
Proof.
  intros Hk v. split; [|split; [|split; [|split; [|split; [|split]]]]].
  - intros s Hs Hne. exact (or_else_present _ "" s Hs Hne).
  - intros Hf. exact (or_else_absent _ "" Hf).
  - intros s Hs Hne. exact (or_else_present _ (now k) s Hs Hne).
  - intros Hf. exact (or_else_absent _ (now k) Hf).
  - apply keep_sanitize.
  - intros Hid Hth. apply In_sanitizedVideos. exists k, item. now repeat split.
  - apply sanitizedVideos_length_from.
Qed.

(** The second record of the first example channel has no title. *)
Lemma sanitize_defaults_and_drop_witness :
  let item :=
    Examples.rawVideo "a2" "https://i.ytimg.com/vi/a2/mqdefault.jpg"
      None (Some Examples.T2) in
  let v := sanitize Examples.T0 item in
  nth_error Examples.videosA 1 = Some item /\
  title v = "" /\
  In v (sanitizedVideos (fun _ => Examples.T0) (Some Examples.videosA)).
Proof.
  intros item v.
  pose proof (sanitize_defaults_and_drop (fun _ => Examples.T0)
                Examples.videosA 1 item eq_refl)
    as (_ & Htitle & _ & _ & _ & Hin & _).
  split; [reflexivity|]. split.
  - apply Htitle. reflexivity.
  - apply Hin.
    + exists "a2". split; [reflexivity | discriminate].
    + exists "https://i.ytimg.com/vi/a2/mqdefault.jpg".
      split; [reflexivity | discriminate].
Defined.

(** C9. A request without the [access_token] query parameter is answered
    401 with the error "Access token required", and no upstream call is
    made. *)
Theorem missing_token_401 (w : World) (request : Request) :
  accessToken request = None ->
  run (Part000.GET w request) =
    (Normal {| status := 401; headers := cacheHeaders;
               body := ErrorBody "Access token required" None |}, []).
Proof.
  intros H. apply Part000_GET_no_token. now rewrite H.
Qed.

Lemma missing_token_401_witness :
  accessToken Examples.request_without_token = None /\
  run (Part000.GET Examples.world Examples.request_without_token) =
    (Normal {| status := 401; headers := cacheHeaders;
               body := ErrorBody "Access token required" None |}, []).
Proof.
  split; [reflexivity|].
  apply (missing_token_401 Examples.world Examples.request_without_token).
  reflexivity.
Defined.

(** C4. A request whose token the userinfo endpoint rejects with a
    non-success status is answered 401 with the error "Invalid or expired
    access token"; the userinfo call is the only upstream call. *)
Theorem rejected_token_401 (w : World) (request : Request) (tok : string)
    (ur : FetchResponse unit) :
  accessToken request = Some tok ->
  tok <> "" ->
  userinfo w [] tok = inr ur ->
  ok ur = false ->
  run (Part000.GET w request) =
    (Normal {| status := 401; headers := cacheHeaders;
               body := ErrorBody "Invalid or expired access token" None |},
     [UserInfo tok]).
Proof.
  apply Part000_GET_rejected.
Qed.

Lemma rejected_token_401_witness :
  run (Part000.GET Examples.world_token_rejected Examples.request) =
    (Normal {| status := 401; headers := cacheHeaders;
               body := ErrorBody "Invalid or expired access token" None |},
     [UserInfo "ya29.token"]).
Proof.
  apply (rejected_token_401 Examples.world_token_rejected Examples.request
           "ya29.token" {| http_status := 401; json := inr tt |}).
  - reflexivity.
  - discriminate.
  - reflexivity.
  - reflexivity.
Defined.

(** C6. When the subscription payload has no record, the request is
    answered 404 with the error "No subscriptions found", and the run ends
    after the subscriptions call: no search call is made. *)
Theorem no_subscriptions_404 (w : World) (request : Request) (tok : string)
    (ur : FetchResponse unit) (sr : FetchResponse (Payload Subscription))
    (data : Payload Subscription) :
  accessToken request = Some tok ->
  tok <> "" ->
  userinfo w [] tok = inr ur ->
  ok ur = true ->
  subscriptions w [UserInfo tok] tok = inr sr ->
  json sr = inr data ->
  error data = None ->
  items data = None \/ items data = Some [] ->
  exists r,
    run (Part000.GET w request) =
      (Normal r, [UserInfo tok; Subscriptions tok]) /\
    status r = 404 /\
    body r = ErrorBody "No subscriptions found" None.
Proof.
  intros Ht Hne Hu Hok Hs Hj He Hi.
  rewrite (Part000_GET_token w request tok Ht Hne ur Hu Hok).
  unfold try_catch.
  rewrite (subscribedVideos_empty w cacheHeaders tok [UserInfo tok] sr data
             Hs Hj He Hi).
  eexists. split; [reflexivity|]. now split.
Qed.

Lemma no_subscriptions_404_witness :
  exists r,
    run (Part000.GET Examples.world_no_subscriptions Examples.request) =
      (Normal r, [UserInfo "ya29.token"; Subscriptions "ya29.token"]) /\
    status r = 404 /\
    body r = ErrorBody "No subscriptions found" None.
Proof.
  apply (no_subscriptions_404 Examples.world_no_subscriptions Examples.request
           "ya29.token" {| http_status := 200; json := inr tt |}
           {| http_status := 200; json := inr (Examples.itemsOnly []) |}
           (Examples.itemsOnly [])).
  - reflexivity.
  - discriminate.
  - reflexivity.
  - reflexivity.
  - reflexivity.
  - reflexivity.
  - reflexivity.
  - right. reflexivity.
Defined.

(** [NextResponse.json] issues no call. *)
Lemma NextResponse_json_trace (b : Body) (init : ResponseInit)
    (tr tr' : Trace) (c : Completion NextResponse) :
  NextResponse_json b init tr = (c, tr') -> tr' = tr.
Proof.
  unfold NextResponse_json, ret, throw.
  destruct (_ && _); [destruct (null_body_status _)|]; now intros [= _ <-].
Qed.

(** The calls of the stages: the subscriptions call, then search calls. *)
Lemma subscribedVideos_trace (w : World) (init : ResponseInit) (tok : string)
    (tr tr' : Trace) (c : Completion NextResponse) :
  subscribedVideos w init tok tr = (c, tr') ->
  exists searches,
    tr' = tr ++ Subscriptions tok :: searches /\
    forallb is_search searches = true.
Proof.
  unfold subscribedVideos, bind, fetch, response_json.
  destruct (subscriptions w tr tok) as [m|sr].
  { intros [= _ <-]. now exists []. }
  unfold throw, ret. destruct (json sr) as [m|data].
  { intros [= _ <-]. now exists []. }
  destruct (error data) as [e|].
  { intros H. apply NextResponse_json_trace in H as ->. now exists []. }
  destruct (items data) as [[|sub subs]|];
    try (intros H; apply NextResponse_json_trace in H as ->; now exists []).
  destruct (for_channelIds w _ _ _) as [[all|e] tr1] eqn:Hloop;
    apply for_channelIds_trace in Hloop as [n ->]; intros H;
    [apply NextResponse_json_trace in H as -> | injection H as _ <-];
    (eexists; split; [now rewrite <- app_assoc|]);
    clear; induction (firstn n _) as [|x l IH]; simpl; auto.
Qed.

(** X10. route.ts makes no userinfo call: whatever the token, its first
    call is the subscriptions call, and every later call is a search
    call. *)
Lemma RouteTs_GET_trace (w : World) (request : Request)
    (c : Completion NextResponse) (tr : Trace) :
  run (RouteTs.GET w request) = (c, tr) ->
  tr = [] \/
  exists tok searches,
    tr = Subscriptions tok :: searches /\ forallb is_search searches = true.
Proof.
  intros Hrun.
  destruct (truthy (accessToken request)) eqn:Ht.
  2:{ rewrite RouteTs_GET_no_token in Hrun by assumption.
      injection Hrun as _ <-. now left. }
  apply truthy_Some in Ht as (tok & Ht & Hne).
  rewrite (RouteTs_GET_token w request tok Ht Hne) in Hrun.
  right. exists tok.
  apply try_catch_cases in Hrun as [(r & _ & Hm) | (e & Hm & _)];
    apply subscribedVideos_trace in Hm as (l & -> & Hl); now exists l.
Qed.

(** The same stage of route.ts, which makes no userinfo call. *)
Lemma RouteTs_empty_subscriptions (w : World) (request : Request)
    (tok : string) (sr : FetchResponse (Payload Subscription))
    (data : Payload Subscription) :
  accessToken request = Some tok ->
  tok <> "" ->
  subscriptions w [] tok = inr sr ->
  json sr = inr data ->
  error data = None ->
  items data = None \/ items data = Some [] ->
  run (RouteTs.GET w request) =
    (Normal {| status := 404; headers := [];
               body := ErrorBody "No subscriptions found" None |},
     [Subscriptions tok]).
Proof.
  intros Ht Hne Hs Hj He Hi.
  rewrite (RouteTs_GET_token w request tok Ht Hne).
  unfold try_catch.
  now rewrite (subscribedVideos_empty w [] tok [] sr data Hs Hj He Hi).
Qed.

(** ** Headers *)

(** The two responses of the subscription stage are built without headers,
    in both files; the final response has the headers of [successInit]. *)
Lemma subscribedVideos_headers (w : World) (hs : list (string * string))
    (tok : string) (tr tr' : Trace) (r : NextResponse) :
  subscribedVideos w {| init_status := None; init_headers := hs |} tok tr =
    (Normal r, tr') ->
  (headers r = hs /\ exists its n, body r = ItemsBody its n) \/
  (headers r = [] /\
   (body r = ErrorBody "No subscriptions found" None \/
    exists msg e, body r = ErrorBody msg (Some (DetailsError e)))).
Proof.
  unfold subscribedVideos, bind, fetch, response_json.
  destruct (subscriptions w tr tok) as [m|sr]; [discriminate|].
  unfold throw, ret. destruct (json sr) as [m|data]; [discriminate|].
  destruct (error data) as [e|].
  { intros H. apply NextResponse_json_Normal in H as (Hb & Hh & _).
    right. split; [exact Hh|]. right. do 2 eexists. exact Hb. }
  destruct (items data) as [[|sub subs]|];
    try (unfold NextResponse_json, ret; simpl; intros [= <- _];
         right; split; [reflexivity|]; now left).
  destruct (for_channelIds w _ _ _) as [[all|e] tr1]; [|discriminate].
  unfold NextResponse_json, ret; simpl. intros [= <- _]. left.
  split; [reflexivity|]. do 2 eexists. reflexivity.
Qed.

(** X8. Which responses of part_000 carry the cache headers: all of them
    but the 404 of an empty subscription list and the upstream error, which
    carry none. *)
Lemma Part000_GET_headers (w : World) (request : Request) (r : NextResponse)
    (tr : Trace) :
  run (Part000.GET w request) = (Normal r, tr) ->
  headers r = cacheHeaders \/
  (headers r = [] /\
   (body r = ErrorBody "No subscriptions found" None \/
    exists msg e, body r = ErrorBody msg (Some (DetailsError e)))).
Proof.
  intros Hrun.
  destruct (truthy (accessToken request)) eqn:Ht.
  2:{ rewrite Part000_GET_no_token in Hrun by assumption.
      injection Hrun as <- _. now left. }
  apply truthy_Some in Ht as (tok & Ht & Hne).
  destruct (userinfo w [] tok) as [msg|ur] eqn:Hu.
  { rewrite (Part000_GET_userinfo_rejects w request tok Ht Hne msg Hu) in Hrun.
    injection Hrun as <- _. now left. }
  destruct (ok ur) eqn:Hok.
  2:{ rewrite (Part000_GET_rejected w request tok ur Ht Hne Hu Hok) in Hrun.
      injection Hrun as <- _. now left. }
  rewrite (Part000_GET_token w request tok Ht Hne ur Hu Hok) in Hrun.
  apply try_catch_cases in Hrun as [(r' & [= <-] & Hm) | (e & _ & [= ->])];
    [|now left].
  apply subscribedVideos_headers in Hm as [[Hh _] | H]; [now left | now right].
Qed.

(** X9. route.ts passes headers to none of its responses. *)
Lemma RouteTs_GET_no_headers (w : World) (request : Request)
    (r : NextResponse) (tr : Trace) :
  run (RouteTs.GET w request) = (Normal r, tr) ->
  headers r = [].
Proof.
  intros Hrun.
  destruct (truthy (accessToken request)) eqn:Ht.
  2:{ rewrite RouteTs_GET_no_token in Hrun by assumption.
      now injection Hrun as <- _. }
  apply truthy_Some in Ht as (tok & Ht & Hne).
  rewrite (RouteTs_GET_token w request tok Ht Hne) in Hrun.
  apply try_catch_cases in Hrun as [(r' & [= <-] & Hm) | (e & _ & [= ->])];
    [|reflexivity].
  now apply subscribedVideos_headers in Hm as [[Hh _] | [Hh _]].
Qed.

(** C5 (the code departs from it). With a valid token and an empty
    subscription list, part_000 answers 404 without any of the cache
    headers its other responses carry. *)
Theorem not_found_lacks_cache_headers :
  exists r,
    run (Part000.GET Examples.world_no_subscriptions Examples.request) =
      (Normal r, [UserInfo "ya29.token"; Subscriptions "ya29.token"]) /\
    status r = 404 /\
    body r = ErrorBody "No subscriptions found" None /\
    headers r = [] /\
    headers r <> cacheHeaders.
Proof.
  eexists. split; [vm_compute; reflexivity|].
  repeat split. discriminate.
Qed.

(** ** Partial failure *)

(** C3 as stated fails. The search call of the first channel fails at the
    transport level, that of the second channel would succeed: the response
    is 500 and the second channel is never asked. *)
Lemma transport_failure_aborts_request :
  let w := Examples.world_channel_unreachable in
  let tr0 := [UserInfo "ya29.token"; Subscriptions "ya29.token"] in
  search w tr0 (YOUTUBE_API_KEY w) "UCa" = inl "fetch failed" /\
  search w (tr0 ++ [Search (YOUTUBE_API_KEY w) "UCa"]) (YOUTUBE_API_KEY w) "UCb"
    = Examples.okJson (Examples.itemsOnly Examples.videosB) /\
  exists r,
    run (Part000.GET w Examples.request) =
      (Normal r, tr0 ++ [Search (YOUTUBE_API_KEY w) "UCa"]) /\
    status r = 500 /\
    status r <> 200 /\
    body r = ErrorBody "Internal server error"
               (Some (DetailsMessage (FetchFailed "fetch failed"))).
Proof.
  intros w tr0. split; [reflexivity|]. split; [reflexivity|].
  eexists. split; [vm_compute; reflexivity|].
  repeat split. discriminate.
Qed.

(** C3, amended. When every search call settles with a JSON body, a channel
    whose response has a non-success status or an error field adds nothing
    and the loop goes on with the next channel; one search call is made per
    channel, the response is 200 and its items are the first 10 of the
    sorted contributions, each of which comes from a channel that answered
    with a success status and no error field. *)
Theorem failing_channel_is_skipped (w : World) (request : Request)
    (tok : string) (ur : FetchResponse unit)
    (sr : FetchResponse (Payload Subscription)) (data : Payload Subscription)
    (sub : Subscription) (subs : list Subscription) :
  accessToken request = Some tok ->
  tok <> "" ->
  userinfo w [] tok = inr ur ->
  ok ur = true ->
  subscriptions w [UserInfo tok] tok = inr sr ->
  json sr = inr data ->
  error data = None ->
  items data = Some (sub :: subs) ->
  (forall tr ch, In ch (channelIds (sub :: subs)) -> Spec.answers_json w tr ch) ->
  let key := YOUTUBE_API_KEY w in
  let ids := channelIds (sub :: subs) in
  let tr0 := [UserInfo tok; Subscriptions tok] in
  let its := sortedVideos (Date_getTime w) (Spec.allVideos w tr0 ids) in
  run (Part000.GET w request) =
    (Normal {| status := 200; headers := cacheHeaders;
               body := ItemsBody its (length ids) |},
     tr0 ++ map (Search key) ids) /\
  (forall tr ch rest allVideos response payload,
      search w tr key ch = inr response ->
      json response = inr payload ->
      ok response = false \/ error payload <> None ->
      Spec.contribution w tr ch = [] /\
      for_channelIds w (ch :: rest) allVideos tr =
        for_channelIds w rest allVideos (tr ++ [Search key ch])) /\
  (forall v, In v its -> Spec.from_succeeding_channel w ids v).
Proof.
  intros Ht Hne Hu Hok Hs Hj He Hi Hjson key ids tr0 its.
  split; [|split].
  - rewrite (Part000_GET_token w request tok Ht Hne ur Hu Hok).
    unfold try_catch.
    rewrite (subscribedVideos_records w cacheHeaders tok [UserInfo tok] sr
               data sub subs Hs Hj He Hi).
    unfold bind. rewrite for_channelIds_completes by exact Hjson.
    reflexivity.
  - intros tr ch rest acc response payload Hsearch Hjs Hfail. split.
    + unfold Spec.contribution. fold key. rewrite Hsearch, Hjs.
      destruct Hfail as [-> | Herr]; [reflexivity|].
      destruct (error payload); [|contradiction].
      simpl. now rewrite andb_false_r.
    + now apply for_channelIds_skip with response payload.
  - intros v Hv. apply sortedVideos_incl in Hv.
    now apply allVideos_origin in Hv.
Qed.

Lemma answers_json_channel_500 (tr : Trace) (ch : string) :
  Spec.answers_json Examples.world_channel_500 tr ch.
Proof.
  unfold Spec.answers_json; simpl.
  destruct (String.eqb ch "UCa"); [|destruct (String.eqb ch "UCb")];
    do 2 eexists; split; reflexivity.
Qed.

(** The first channel is answered 500 with an error payload: the response is
    200 and holds the two videos of the second channel. *)
Lemma failing_channel_is_skipped_witness :
  exists its,
    run (Part000.GET Examples.world_channel_500 Examples.request) =
      (Normal {| status := 200; headers := cacheHeaders;
                 body := ItemsBody its 2 |},
       [UserInfo "ya29.token"; Subscriptions "ya29.token";
        Search (Some "server-key") "UCa"; Search (Some "server-key") "UCb"]) /\
    map videoId its = ["b1"; "b2"].
Proof.
  eexists. split.
  - apply (failing_channel_is_skipped Examples.world_channel_500
             Examples.request "ya29.token"
             {| http_status := 200; json := inr tt |}
             {| http_status := 200;
                json := inr (Examples.itemsOnly
                               [Examples.subscription "UCa";
                                Examples.subscription "UCb"]) |}
             (Examples.itemsOnly
                [Examples.subscription "UCa"; Examples.subscription "UCb"])
             (Examples.subscription "UCa") [Examples.subscription "UCb"]).
    + reflexivity.
    + discriminate.
    + reflexivity.
    + reflexivity.
    + reflexivity.
    + reflexivity.
    + reflexivity.
    + reflexivity.
    + intros tr ch _. apply answers_json_channel_500.
  - vm_compute. reflexivity.
Defined.

(** ** The status of the subscriptions response *)

(** The loop reads the search endpoint, the key and the clock only. *)
Lemma for_channelIds_subscriptions_status (st : Z) (w : World)
    (ids : list string) (allVideos : list SanitizedVideo) (tr : Trace) :
  for_channelIds (subscriptions_status st w) ids allVideos tr =
  for_channelIds w ids allVideos tr.
Proof.
  reflexivity.
Qed.

Lemma subscribedVideos_subscriptions_status (st : Z) (w : World)
    (init : ResponseInit) (tok : string) (tr : Trace) :
  subscribedVideos (subscriptions_status st w) init tok tr =
  subscribedVideos w init tok tr.
Proof.
  unfold subscribedVideos, bind, fetch; simpl.
  destruct (subscriptions w tr tok) as [m|sr]; [reflexivity|]. simpl.
  unfold response_json; simpl.
  destruct (json sr) as [m|data]; [reflexivity|]. unfold ret.
  destruct (error data); [reflexivity|].
  destruct (items data) as [[|sub subs]|]; reflexivity.
Qed.

Lemma Part000_GET_subscriptions_status (st : Z) (w : World)
    (request : Request) :
  run (Part000.GET (subscriptions_status st w) request) =
  run (Part000.GET w request).
Proof.
  unfold run, Part000.GET.
  destruct (negb (truthy _)); [reflexivity|].
  unfold try_catch, bind, fetch; simpl.
  destruct (userinfo w [] _) as [m|ur]; [reflexivity|].
  destruct (negb (ok ur)); [reflexivity|].
  now rewrite subscribedVideos_subscriptions_status.
Qed.

Lemma RouteTs_GET_subscriptions_status (st : Z) (w : World)
    (request : Request) :
  run (RouteTs.GET (subscriptions_status st w) request) =
  run (RouteTs.GET w request).
Proof.
  unfold run, RouteTs.GET.
  destruct (negb (truthy _)); [reflexivity|].
  unfold try_catch. now rewrite subscribedVideos_subscriptions_status.
Qed.

(** C10. The subscriptions stage answers with the upstream error only when
    the payload has an error field; the HTTP status of the subscriptions
    response plays no part in the run.  A subscriptions response with a
    non-success status and a payload without an error field is therefore
    handled like a successful one: 404 "No subscriptions found" when its
    items are absent or empty, and otherwise the loop over the channel
    identifiers of its records. *)
Theorem subscriptions_status_is_ignored (w : World) (request : Request) :
  (forall r tr msg e,
      run (Part000.GET w request) = (Normal r, tr) ->
      body r = ErrorBody msg (Some (DetailsError e)) ->
      exists tok sr data,
        accessToken request = Some tok /\
        subscriptions w [UserInfo tok] tok = inr sr /\
        json sr = inr data /\
        error data = Some e) /\
  (forall st,
      run (Part000.GET (subscriptions_status st w) request) =
      run (Part000.GET w request)) /\
  (forall tok ur sr data,
      accessToken request = Some tok ->
      tok <> "" ->
      userinfo w [] tok = inr ur ->
      ok ur = true ->
      subscriptions w [UserInfo tok] tok = inr sr ->
      ok sr = false ->
      json sr = inr data ->
      error data = None ->
      (items data = None \/ items data = Some [] ->
       exists r,
         run (Part000.GET w request) =
           (Normal r, [UserInfo tok; Subscriptions tok]) /\
         status r = 404 /\
         body r = ErrorBody "No subscriptions found" None) /\
      (forall sub subs,
          items data = Some (sub :: subs) ->
          run (Part000.GET w request) =
            try_catch
              (allVideos <- for_channelIds w (channelIds (sub :: subs)) [] ;;
               NextResponse_json
                 (ItemsBody (sortedVideos (Date_getTime w) allVideos)
                    (length (channelIds (sub :: subs))))
                 {| init_status := None; init_headers := cacheHeaders |})
              (fun error =>
                 NextResponse_json
                   (ErrorBody "Internal server error"
                      (Some (DetailsMessage error)))
                   {| init_status := Some 500; init_headers := cacheHeaders |})
              [UserInfo tok; Subscriptions tok])).
Proof.
  split; [|split].
  - intros r tr msg e Hrun Hbody.
    destruct (truthy (accessToken request)) eqn:Ht.
    2:{ rewrite Part000_GET_no_token in Hrun by assumption.
        injection Hrun as <- _. discriminate Hbody. }
    apply truthy_Some in Ht as (tok & Ht & Hne).
    destruct (userinfo w [] tok) as [m|ur] eqn:Hu.
    { rewrite (Part000_GET_userinfo_rejects w request tok Ht Hne m Hu) in Hrun.
      injection Hrun as <- _. discriminate Hbody. }
    destruct (ok ur) eqn:Hok.
    2:{ rewrite (Part000_GET_rejected w request tok ur Ht Hne Hu Hok) in Hrun.
        injection Hrun as <- _. discriminate Hbody. }
    rewrite (Part000_GET_token w request tok Ht Hne ur Hu Hok) in Hrun.
    apply try_catch_cases in Hrun as [(r' & [= <-] & Hm) | (x & _ & [= ->])];
      [|discriminate Hbody].
    destruct (subscribedVideos_upstream w cacheHeaders tok _ _ r msg e Hm Hbody)
      as (sr & data & Hs & Hj & He & _).
    now exists tok, sr, data.
  - intros st. apply Part000_GET_subscriptions_status.
  - intros tok ur sr data Ht Hne Hu Hok Hs _ Hj He.
    rewrite (Part000_GET_token w request tok Ht Hne ur Hu Hok). split.
    + intros Hi. unfold try_catch.
      rewrite (subscribedVideos_empty w cacheHeaders tok [UserInfo tok] sr
                 data Hs Hj He Hi).
      eexists. split; [reflexivity|]. now split.
    + intros sub subs Hi. unfold try_catch.
      now rewrite (subscribedVideos_records w cacheHeaders tok [UserInfo tok]
                     sr data sub subs Hs Hj He Hi).
Qed.

(** The subscriptions endpoint answers 500: with records and no error field
    the response is the one of the 200 answer; with neither records nor an
    error field it is the 404. *)
Lemma subscriptions_status_is_ignored_witness :
  run (Part000.GET Examples.world_subscriptions_500 Examples.request) =
    run (Part000.GET Examples.world Examples.request) /\
  exists r,
    run (Part000.GET Examples.world_subscriptions_500_empty Examples.request) =
      (Normal r, [UserInfo "ya29.token"; Subscriptions "ya29.token"]) /\
    status r = 404 /\
    body r = ErrorBody "No subscriptions found" None.
Proof.
  split.
  - exact (proj1 (proj2 (subscriptions_status_is_ignored Examples.world
                           Examples.request)) 500).
  - apply (proj1 (proj2 (proj2 (subscriptions_status_is_ignored
                                  Examples.world_subscriptions_500_empty
                                  Examples.request))
                   "ya29.token" {| http_status := 200; json := inr tt |}
                   {| http_status := 500;
                      json := inr {| error := None; items := None |} |}
                   {| error := None; items := None |}
                   eq_refl ltac:(discriminate) eq_refl eq_refl eq_refl eq_refl
                   eq_refl eq_refl)).
    left. reflexivity.
Defined.

(** * Further properties of the handlers *)

(** ** Responses built with a given status *)

Lemma NextResponse_json_valid (b : Body) (st : Z) (hs : list (string * string))
    (tr : Trace) :
  200 <= st <= 599 ->
  null_body_status st = false ->
  NextResponse_json b {| init_status := Some st; init_headers := hs |} tr =
    (Normal {| status := st; headers := hs; body := b |}, tr).
Proof.
  intros Hst Hnull. unfold NextResponse_json; simpl.
  replace ((200 <=? st) && (st <=? 599)) with true
    by (symmetry; apply andb_true_iff; split; apply Z.leb_le; lia).
  now rewrite Hnull.
Qed.


(** An error field in the subscription payload: the response is built from
    it, whatever else the payload holds. *)
Lemma subscribedVideos_error (w : World) (init : ResponseInit) (tok : string)
    (tr : Trace) (sr : FetchResponse (Payload Subscription))
    (data : Payload Subscription) (e : ApiError) :
  subscriptions w tr tok = inr sr ->
  json sr = inr data ->
  error data = Some e ->
  subscribedVideos w init tok tr =
    NextResponse_json
      (ErrorBody (or_else (message e) "YouTube API Error")
         (Some (DetailsError e)))
      {| init_status := Some (or_else_Z (code e) 400); init_headers := [] |}
      (tr ++ [Subscriptions tok]).
Proof.
  intros Hs Hj He. unfold subscribedVideos, bind, fetch, response_json.
  rewrite Hs, Hj. unfold ret. now rewrite He.
Qed.

(** X1. An error field in the subscription payload ends the request: the
    response has the code of the error as its status, 400 when the code is
    missing or 0, the message of the error, "YouTube API Error" when it is
    missing or empty, and the error object as details.  The items of the
    payload are not looked at and no search call is made. *)
Theorem upstream_error_forwarded (w : World) (request : Request) (tok : string)
    (ur : FetchResponse unit) (sr : FetchResponse (Payload Subscription))
    (data : Payload Subscription) (e : ApiError) (st : Z) :
  accessToken request = Some tok ->
  tok <> "" ->
  userinfo w [] tok = inr ur ->
  ok ur = true ->
  subscriptions w [UserInfo tok] tok = inr sr ->
  json sr = inr data ->
  error data = Some e ->
  st = match code e with Some 0 | None => 400 | Some c => c end ->
  200 <= st <= 599 ->
  null_body_status st = false ->
  exists r,
    run (Part000.GET w request) =
      (Normal r, [UserInfo tok; Subscriptions tok]) /\
    status r = st /\
    (exists msg,
        body r = ErrorBody msg (Some (DetailsError e)) /\
        (truthy (message e) = false -> msg = "YouTube API Error") /\
        (forall m, message e = Some m -> m <> "" -> msg = m)).
Proof.
  intros Ht Hne Hu Hok Hs Hj He Hst Hrange Hnull.
  assert (Est : or_else_Z (code e) 400 = st).
  { subst st. unfold or_else_Z. destruct (code e) as [c|]; [|reflexivity].
    destruct (Z.eqb_spec c 0) as [-> | Hc]; [reflexivity|].
    destruct c; try reflexivity. contradiction. }
  rewrite (Part000_GET_token w request tok Ht Hne ur Hu Hok).
  unfold try_catch.
  rewrite (subscribedVideos_error w _ tok [UserInfo tok] sr data e Hs Hj He).
  rewrite Est, (NextResponse_json_valid _ st [] _ Hrange Hnull).
  eexists. split; [reflexivity|]. split; [reflexivity|].
  eexists. split; [reflexivity|]. split.
  - apply or_else_absent.
  - intros m Hm Hmne. now apply or_else_present.
Qed.

Lemma upstream_error_forwarded_witness :
  exists r,
    run (Part000.GET Examples.world_quota_exceeded Examples.request) =
      (Normal r, [UserInfo "ya29.token"; Subscriptions "ya29.token"]) /\
    status r = 403 /\
    (exists msg,
        body r = ErrorBody msg (Some (DetailsError Examples.quotaExceeded)) /\
        (truthy (message Examples.quotaExceeded) = false ->
         msg = "YouTube API Error") /\
        (forall m, message Examples.quotaExceeded = Some m -> m <> "" ->
                   msg = m)).
Proof.
  apply (upstream_error_forwarded Examples.world_quota_exceeded
           Examples.request "ya29.token"
           {| http_status := 200; json := inr tt |}
           {| http_status := 403;
              json := inr {| error := Some Examples.quotaExceeded;
                             items := Some [Examples.subscription "UCa"] |} |}
           {| error := Some Examples.quotaExceeded;
              items := Some [Examples.subscription "UCa"] |}
           Examples.quotaExceeded 403).
  - reflexivity.
  - discriminate.
  - reflexivity.
  - reflexivity.
  - reflexivity.
  - reflexivity.
  - reflexivity.
  - reflexivity.
  - lia.
  - reflexivity.
Defined.



(** X3. An [access_token] parameter with the empty string as its value is
    handled like a missing one: 401 "Access token required", no upstream
    call. *)
Theorem empty_token_401 (w : World) (request : Request) :
  accessToken request = Some "" ->
  run (Part000.GET w request) =
    (Normal {| status := 401; headers := cacheHeaders;
               body := ErrorBody "Access token required" None |}, []) /\
  run (RouteTs.GET w request) =
    (Normal {| status := 401; headers := [];
               body := ErrorBody "Access token required" None |}, []).
Proof.
  intros H. split.
  - apply Part000_GET_no_token. now rewrite H.
  - apply RouteTs_GET_no_token. now rewrite H.
Qed.

Lemma empty_token_401_witness :
  run (Part000.GET Examples.world Examples.request_empty_token) =
    (Normal {| status := 401; headers := cacheHeaders;
               body := ErrorBody "Access token required" None |}, []) /\
  run (RouteTs.GET Examples.world Examples.request_empty_token) =
    (Normal {| status := 401; headers := [];
               body := ErrorBody "Access token required" None |}, []).
Proof.
  apply (empty_token_401 Examples.world Examples.request_empty_token).
  reflexivity.
Defined.

(** ** Failures of the first two calls *)

(** X4. When the userinfo call fails at the transport level the request is
    answered 500 "Internal server error" with the message of the failure as
    details and with the cache headers; no other call is made.  A token
    that cannot be checked is not reported as invalid. *)
Theorem userinfo_unreachable_500 (w : World) (request : Request)
    (tok msg : string) :
  accessToken request = Some tok ->
  tok <> "" ->
  userinfo w [] tok = inl msg ->
  run (Part000.GET w request) =
    (Normal {| status := 500; headers := cacheHeaders;
               body := ErrorBody "Internal server error"
                         (Some (DetailsMessage (FetchFailed msg))) |},
     [UserInfo tok]).
Proof.
  intros Ht Hne Hu.
  exact (Part000_GET_userinfo_rejects w request tok Ht Hne msg Hu).
Qed.

Lemma userinfo_unreachable_500_witness :
  run (Part000.GET Examples.world_userinfo_unreachable Examples.request) =
    (Normal {| status := 500; headers := cacheHeaders;
               body := ErrorBody "Internal server error"
                         (Some (DetailsMessage (FetchFailed "fetch failed"))) |},
     [UserInfo "ya29.token"]).
Proof.
  apply (userinfo_unreachable_500 Examples.world_userinfo_unreachable
           Examples.request "ya29.token" "fetch failed").
  - reflexivity.
  - discriminate.
  - reflexivity.
Defined.

(** The exception of a subscriptions call that gives no JSON payload. *)
Lemma subscribedVideos_throws (w : World) (init : ResponseInit) (tok : string)
    (tr : Trace) (e : Exn) :
  (exists m, subscriptions w tr tok = inl m /\ e = FetchFailed m) \/
  (exists sr m, subscriptions w tr tok = inr sr /\ json sr = inl m /\
                e = BodyNotJson m) ->
  subscribedVideos w init tok tr = (Throw e, tr ++ [Subscriptions tok]).
Proof.
  unfold subscribedVideos, bind, fetch, response_json.
  intros [(m & Hs & ->) | (sr & m & Hs & Hj & ->)]; rewrite Hs.
  - reflexivity.
  - now rewrite Hj.
Qed.

(** X5. When the subscriptions call fails at the transport level, or
    settles with a body that is not JSON, the request is answered 500
    "Internal server error" with the message of the failure as details; no
    search call is made. *)
Theorem subscriptions_failure_500 (w : World) (request : Request)
    (tok : string) (ur : FetchResponse unit) (e : Exn) :
  accessToken request = Some tok ->
  tok <> "" ->
  userinfo w [] tok = inr ur ->
  ok ur = true ->
  (exists m, subscriptions w [UserInfo tok] tok = inl m /\ e = FetchFailed m) \/
  (exists sr m, subscriptions w [UserInfo tok] tok = inr sr /\
                json sr = inl m /\ e = BodyNotJson m) ->
  run (Part000.GET w request) =
    (Normal {| status := 500; headers := cacheHeaders;
               body := ErrorBody "Internal server error"
                         (Some (DetailsMessage e)) |},
     [UserInfo tok; Subscriptions tok]).
Proof.
  intros Ht Hne Hu Hok Hfail.
  rewrite (Part000_GET_token w request tok Ht Hne ur Hu Hok).
  unfold try_catch.
  now rewrite (subscribedVideos_throws w _ tok [UserInfo tok] e Hfail).
Qed.

Lemma subscriptions_failure_500_witness :
  run (Part000.GET Examples.world_subscriptions_unreachable Examples.request) =
    (Normal {| status := 500; headers := cacheHeaders;
               body := ErrorBody "Internal server error"
                         (Some (DetailsMessage (FetchFailed "fetch failed"))) |},
     [UserInfo "ya29.token"; Subscriptions "ya29.token"]).
Proof.
  apply (subscriptions_failure_500 Examples.world_subscriptions_unreachable
           Examples.request "ya29.token"
           {| http_status := 200; json := inr tt |}
           (FetchFailed "fetch failed")).
  - reflexivity.
  - discriminate.
  - reflexivity.
  - reflexivity.
  - left. exists "fetch failed". split; reflexivity.
Defined.

(** ** The responses of the handler *)



(** ** The order of the upstream calls *)

(** The calls of the stages: the subscriptions call, then one search call
    per channel identifier of the payload, in order, with the key of the
    server, for as long as the loop runs. *)
Lemma subscribedVideos_calls (w : World) (init : ResponseInit) (tok : string)
    (tr tr' : Trace) (c : Completion NextResponse) :
  subscribedVideos w init tok tr = (c, tr') ->
  exists ids,
    tr' = tr ++ Subscriptions tok :: map (Search (YOUTUBE_API_KEY w)) ids /\
    (ids = [] \/
     exists sr data subs n,
       subscriptions w tr tok = inr sr /\
       json sr = inr data /\
       error data = None /\
       items data = Some subs /\
       ids = firstn n (channelIds subs)).
Proof.
  unfold subscribedVideos, bind, fetch, response_json.
  destruct (subscriptions w tr tok) as [m|sr] eqn:Hs.
  { intros [= _ <-]. exists []. now split; [|left]. }
  unfold throw, ret. destruct (json sr) as [m|data] eqn:Hj.
  { intros [= _ <-]. exists []. now split; [|left]. }
  destruct (error data) as [e|] eqn:He.
  { intros H. apply NextResponse_json_trace in H as ->.
    exists []. now split; [|left]. }
  destruct (items data) as [[|sub subs]|] eqn:Hi;
    try (intros H; apply NextResponse_json_trace in H as ->;
         exists []; now split; [|left]).
  destruct (for_channelIds w _ _ _) as [[all|e] tr1] eqn:Hloop;
    apply for_channelIds_trace in Hloop as [n ->]; intros H;
    [apply NextResponse_json_trace in H as -> | injection H as _ <-];
    (exists (firstn n (channelIds (sub :: subs))); split;
     [now rewrite <- app_assoc | right; now exists sr, data, (sub :: subs), n]).
Qed.

(** X7. The upstream calls of a request come in one order: the userinfo
    call, then the subscriptions call, then search calls, each with the key
    of the server and the identifier of a subscribed channel, in the order
    of the subscription records and without skipping one.  No call is made
    without a token, and none but the userinfo call before the token is
    accepted. *)
Theorem GET_call_order (w : World) (request : Request)
    (c : Completion NextResponse) (tr : Trace) :
  run (Part000.GET w request) = (c, tr) ->
  (truthy (accessToken request) = false /\ tr = []) \/
  exists tok,
    accessToken request = Some tok /\ tok <> "" /\
    (tr = [UserInfo tok] \/
     exists ur ids,
       userinfo w [] tok = inr ur /\ ok ur = true /\
       tr = UserInfo tok :: Subscriptions tok
              :: map (Search (YOUTUBE_API_KEY w)) ids /\
       (ids = [] \/
        exists sr data subs n,
          subscriptions w [UserInfo tok] tok = inr sr /\
          json sr = inr data /\
          error data = None /\
          items data = Some subs /\
          ids = firstn n (channelIds subs))).
Proof.
  intros Hrun.
  destruct (truthy (accessToken request)) eqn:Ht.
  2:{ rewrite Part000_GET_no_token in Hrun by assumption.
      injection Hrun as _ <-. now left. }
  apply truthy_Some in Ht as (tok & Ht & Hne).
  right. exists tok. split; [exact Ht|]. split; [exact Hne|].
  destruct (userinfo w [] tok) as [msg|ur] eqn:Hu.
  { rewrite (Part000_GET_userinfo_rejects w request tok Ht Hne msg Hu) in Hrun.
    injection Hrun as _ <-. now left. }
  destruct (ok ur) eqn:Hok.
  2:{ rewrite (Part000_GET_rejected w request tok ur Ht Hne Hu Hok) in Hrun.
      injection Hrun as _ <-. now left. }
  rewrite (Part000_GET_token w request tok Ht Hne ur Hu Hok) in Hrun.
  right. exists ur.
  apply try_catch_cases in Hrun as [(r & _ & Hm) | (e & Hm & _)];
    apply subscribedVideos_calls in Hm as (ids & -> & Hids);
    exists ids; now repeat split.
Qed.

Lemma GET_call_order_witness :
  exists tok ur ids,
    accessToken Examples.request = Some tok /\
    userinfo Examples.world_channel_unreachable [] tok = inr ur /\
    ok ur = true /\
    [UserInfo "ya29.token"; Subscriptions "ya29.token";
     Search (Some "server-key") "UCa"] =
      UserInfo tok :: Subscriptions tok
        :: map (Search (Some "server-key")) ids.
Proof.
  destruct (GET_call_order Examples.world_channel_unreachable Examples.request
              _ _ eq_refl)
    as [[Hfalse _] | (tok & Ht & Hne & [Htr | (ur & ids & Hu & Hok & Htr & _)])].
  - discriminate Hfalse.
  - discriminate Htr.
  - exists tok, ur, ids. repeat split; assumption.
Defined.

(** ** Witnesses for the header and trace lemmas *)

Lemma Part000_GET_headers_witness :
  exists r tr,
    run (Part000.GET Examples.world_quota_exceeded Examples.request) =
      (Normal r, tr) /\
    status r = 403 /\
    (headers r = cacheHeaders \/
     (headers r = [] /\
      (body r = ErrorBody "No subscriptions found" None \/
       exists msg e, body r = ErrorBody msg (Some (DetailsError e))))).
Proof.
  eexists _, _. split; [vm_compute; reflexivity|]. split; [reflexivity|].
  exact (Part000_GET_headers Examples.world_quota_exceeded Examples.request
           _ _ eq_refl).
Defined.

Lemma RouteTs_GET_no_headers_witness :
  exists r tr,
    run (RouteTs.GET Examples.world Examples.request) = (Normal r, tr) /\
    status r = 200 /\
    headers r = [].
Proof.
  eexists _, _. split; [vm_compute; reflexivity|]. split; [reflexivity|].
  exact (RouteTs_GET_no_headers Examples.world Examples.request _ _ eq_refl).
Defined.

Lemma RouteTs_GET_trace_witness :
  exists c tr,
    run (RouteTs.GET Examples.world_token_rejected Examples.request) = (c, tr) /\
    (tr = [] \/
     exists tok searches,
       tr = Subscriptions tok :: searches /\
       forallb is_search searches = true).
Proof.
  eexists _, _. split; [vm_compute; reflexivity|].
  exact (RouteTs_GET_trace Examples.world_token_rejected Examples.request
           _ _ eq_refl).
Defined.

(** ** Edge cases of the channel loop *)

Lemma allVideos_all_fail (w : World) (ids : list string) :
  (forall tr ch, In ch ids ->
     exists response payload,
       search w tr (YOUTUBE_API_KEY w) ch = inr response /\
       json response = inr payload /\
       (ok response = false \/ error payload <> None)) ->
  forall tr, Spec.allVideos w tr ids = [].
Proof.
  induction ids as [|ch rest IH]; intros Hfail tr; simpl; [reflexivity|].
  rewrite IH by (intros; apply Hfail; now right). rewrite app_nil_r.
  destruct (Hfail tr ch (or_introl eq_refl))
    as (response & payload & Hs & Hj & Hf).
  unfold Spec.contribution. rewrite Hs, Hj.
  destruct Hf as [-> | He]; [reflexivity|].
  destruct (error payload); [|contradiction]. simpl. now rewrite andb_false_r.
Qed.

(** X11. When the search call of every channel is answered with a
    non-success status or an error payload, the request still succeeds: the
    response is 200 with no item, [subscriptionCount] counts the channels
    all the same, and every channel has been asked. *)
Theorem all_channels_fail_200_empty (w : World) (request : Request)
    (tok : string) (ur : FetchResponse unit)
    (sr : FetchResponse (Payload Subscription)) (data : Payload Subscription)
    (sub : Subscription) (subs : list Subscription) :
  accessToken request = Some tok ->
  tok <> "" ->
  userinfo w [] tok = inr ur ->
  ok ur = true ->
  subscriptions w [UserInfo tok] tok = inr sr ->
  json sr = inr data ->
  error data = None ->
  items data = Some (sub :: subs) ->
  (forall tr ch, In ch (channelIds (sub :: subs)) ->
     exists response payload,
       search w tr (YOUTUBE_API_KEY w) ch = inr response /\
       json response = inr payload /\
       (ok response = false \/ error payload <> None)) ->
  run (Part000.GET w request) =
    (Normal {| status := 200; headers := cacheHeaders;
               body := ItemsBody [] (length (channelIds (sub :: subs))) |},
     [UserInfo tok; Subscriptions tok]
       ++ map (Search (YOUTUBE_API_KEY w)) (channelIds (sub :: subs))).
Proof.
  intros Ht Hne Hu Hok Hs Hj He Hi Hfail.
  rewrite (Part000_GET_token w request tok Ht Hne ur Hu Hok).
  unfold try_catch.
  rewrite (subscribedVideos_records w cacheHeaders tok [UserInfo tok] sr
             data sub subs Hs Hj He Hi).
  unfold bind. rewrite for_channelIds_completes.
  - now rewrite (allVideos_all_fail w _ Hfail).
  - intros tr ch Hin.
    destruct (Hfail tr ch Hin) as (response & payload & Hsearch & Hjs & _).
    now exists response, payload.
Qed.

Lemma all_channels_fail_200_empty_witness :
  run (Part000.GET Examples.world_all_channels_fail Examples.request) =
    (Normal {| status := 200; headers := cacheHeaders;
               body := ItemsBody [] 2 |},
     [UserInfo "ya29.token"; Subscriptions "ya29.token";
      Search (Some "server-key") "UCa"; Search (Some "server-key") "UCb"]).
Proof.
  apply (all_channels_fail_200_empty Examples.world_all_channels_fail
           Examples.request "ya29.token"
           {| http_status := 200; json := inr tt |}
           {| http_status := 200;
              json := inr (Examples.itemsOnly
                             [Examples.subscription "UCa";
                              Examples.subscription "UCb"]) |}
           (Examples.itemsOnly
              [Examples.subscription "UCa"; Examples.subscription "UCb"])
           (Examples.subscription "UCa") [Examples.subscription "UCb"]);
    try reflexivity; try discriminate.
  intros tr ch _. do 2 eexists. split; [reflexivity|].
  split; [reflexivity|]. now left.
Defined.

(** X12. Subscription records there are, but none with a channel
    identifier: the request is not answered 404.  The response is 200 with
    no item and a [subscriptionCount] of 0, and no search call is made. *)
Theorem no_channel_identifier_200_empty (w : World) (request : Request)
    (tok : string) (ur : FetchResponse unit)
    (sr : FetchResponse (Payload Subscription)) (data : Payload Subscription)
    (sub : Subscription) (subs : list Subscription) :
  accessToken request = Some tok ->
  tok <> "" ->
  userinfo w [] tok = inr ur ->
  ok ur = true ->
  subscriptions w [UserInfo tok] tok = inr sr ->
  json sr = inr data ->
  error data = None ->
  items data = Some (sub :: subs) ->
  Forall (fun s => Spec.channelIdentifier s = None) (sub :: subs) ->
  run (Part000.GET w request) =
    (Normal {| status := 200; headers := cacheHeaders;
               body := ItemsBody [] 0 |},
     [UserInfo tok; Subscriptions tok]).
Proof.
  intros Ht Hne Hu Hok Hs Hj He Hi Hnone.
  assert (Hids : channelIds (sub :: subs) = []).
  { rewrite channelIds_spec. clear - Hnone.
    induction Hnone as [|s l Hs' _ IH]; simpl;
      [reflexivity | now rewrite Hs']. }
  rewrite (Part000_GET_token w request tok Ht Hne ur Hu Hok).
  unfold try_catch.
  rewrite (subscribedVideos_records w cacheHeaders tok [UserInfo tok] sr
             data sub subs Hs Hj He Hi).
  now rewrite Hids.
Qed.

Lemma no_channel_identifier_200_empty_witness :
  run (Part000.GET Examples.world_no_channel_ids Examples.request) =
    (Normal {| status := 200; headers := cacheHeaders;
               body := ItemsBody [] 0 |},
     [UserInfo "ya29.token"; Subscriptions "ya29.token"]).
Proof.
  apply (no_channel_identifier_200_empty Examples.world_no_channel_ids
           Examples.request "ya29.token"
           {| http_status := 200; json := inr tt |}
           {| http_status := 200;
              json := inr (Examples.itemsOnly [ {| Sub.snippet := None |} ]) |}
           (Examples.itemsOnly [ {| Sub.snippet := None |} ])
           {| Sub.snippet := None |} []);
    try reflexivity; try discriminate.
  repeat constructor.
Defined.

(** ** What the sort keeps and what the limit drops *)






(** ** The two versions of the handler *)

Lemma map_from_ext {A B} (f g : nat -> A -> B) (l : list A) :
  forall i, (forall k a, f k a = g k a) -> map_from f i l = map_from g i l.
Proof.
  induction l as [|a l IH]; intros i H; simpl; [reflexivity|].
  now rewrite H, (IH (S i) H).
Qed.

Lemma sanitizedVideos_ext (now now' : nat -> string)
    (items : option (list YouTubeVideo)) :
  (forall i, now i = now' i) ->
  sanitizedVideos now items = sanitizedVideos now' items.
Proof.
  intros H. destruct items as [l|]; [|reflexivity]. simpl.
  f_equal. apply map_from_ext. intros k a. now rewrite H.
Qed.

(** In a history-free world the loop does the same from any trace. *)
Lemma for_channelIds_history_free (w : World) (ids : list string) :
  history_free w ->
  forall allVideos tr tr',
  exists c calls,
    for_channelIds w ids allVideos tr = (c, tr ++ calls) /\
    for_channelIds w ids allVideos tr' = (c, tr' ++ calls).
Proof.
  intros (_ & Hsearch & Hnow).
  induction ids as [|ch rest IH]; intros acc tr tr'; simpl.
  - exists (Normal acc), []. unfold ret. now rewrite !app_nil_r.
  - unfold bind, fetch, response_json.
    rewrite (Hsearch tr' tr).
    destruct (search w tr (YOUTUBE_API_KEY w) ch) as [m|response].
    { now exists (Throw (FetchFailed m)), [Search (YOUTUBE_API_KEY w) ch]. }
    unfold throw, ret. destruct (json response) as [m|data].
    { now exists (Throw (BodyNotJson m)), [Search (YOUTUBE_API_KEY w) ch]. }
    set (call := Search (YOUTUBE_API_KEY w) ch).
    assert (Hstep : forall acc',
      exists c calls,
        for_channelIds w rest acc' (tr ++ [call]) = (c, tr ++ calls) /\
        for_channelIds w rest acc' (tr' ++ [call]) = (c, tr' ++ calls)).
    { intros acc'.
      destruct (IH acc' (tr ++ [call]) (tr' ++ [call])) as (c & l & H1 & H2).
      exists c, (call :: l).
      rewrite H1, H2. now rewrite <- !app_assoc. }
    destruct (negb (ok response) || is_Some (error data)); [apply Hstep|].
    unfold clock.
    rewrite (sanitizedVideos_ext (Date_now w (tr' ++ [call]))
               (Date_now w (tr ++ [call])) (items data))
      by (intros i; apply Hnow).
    apply Hstep.
Qed.

Lemma NextResponse_json_any_trace (b : Body) (init : ResponseInit)
    (tr tr' : Trace) :
  NextResponse_json b init tr' =
    (fst (NextResponse_json b init tr), tr').
Proof.
  unfold NextResponse_json, ret, throw.
  destruct (_ && _); [destruct (null_body_status _)|]; reflexivity.
Qed.

(** In a history-free world the stages give, from any trace and whatever
    the headers of the final response, the same exception or responses with
    the same status and body, after the same calls. *)
Lemma subscribedVideos_history_free (w : World) (hs hs' : list (string * string))
    (tok : string) (tr tr' : Trace) :
  history_free w ->
  exists calls,
    (exists e,
        subscribedVideos w {| init_status := None; init_headers := hs |}
          tok tr = (Throw e, tr ++ calls) /\
        subscribedVideos w {| init_status := None; init_headers := hs' |}
          tok tr' = (Throw e, tr' ++ calls)) \/
    (exists r r',
        subscribedVideos w {| init_status := None; init_headers := hs |}
          tok tr = (Normal r, tr ++ calls) /\
        subscribedVideos w {| init_status := None; init_headers := hs' |}
          tok tr' = (Normal r', tr' ++ calls) /\
        status r = status r' /\ body r = body r').
Proof.
  intros Hfree. pose proof Hfree as (Hsubs & _).
  unfold subscribedVideos, bind, fetch, response_json.
  rewrite (Hsubs tr' tr).
  destruct (subscriptions w tr tok) as [m|sr].
  { exists [Subscriptions tok]. left. now exists (FetchFailed m). }
  unfold throw, ret. destruct (json sr) as [m|data].
  { exists [Subscriptions tok]. left. now exists (BodyNotJson m). }
  destruct (error data) as [e|].
  { exists [Subscriptions tok].
    rewrite (NextResponse_json_any_trace _ _ (tr ++ [Subscriptions tok])
               (tr' ++ [Subscriptions tok])).
    destruct (NextResponse_json _ _ (tr ++ [Subscriptions tok]))
      as [[r|x] t] eqn:H; apply NextResponse_json_trace in H as H'; subst t;
      simpl; [right; now exists r, r | left; now exists x]. }
  destruct (items data) as [[|sub subs]|];
    try (exists [Subscriptions tok]; right; unfold NextResponse_json, ret;
         simpl; do 2 eexists; repeat split; reflexivity).
  destruct (for_channelIds_history_free w (channelIds (sub :: subs)) Hfree []
              (tr ++ [Subscriptions tok]) (tr' ++ [Subscriptions tok]))
    as (c & calls & -> & ->).
  exists (Subscriptions tok :: calls).
  replace ((tr ++ [Subscriptions tok]) ++ calls)
    with (tr ++ Subscriptions tok :: calls) by now rewrite <- app_assoc.
  replace ((tr' ++ [Subscriptions tok]) ++ calls)
    with (tr' ++ Subscriptions tok :: calls) by now rewrite <- app_assoc.
  destruct c as [all|e].
  - right. unfold NextResponse_json, ret; simpl.
    do 2 eexists. repeat split; reflexivity.
  - left. now exists e.
Qed.

(** X15. part_000 is route.ts behind the token check: in a world whose
    answers do not depend on the calls made before, and for a token the
    userinfo endpoint accepts, both handlers answer with the same status
    and the same body, part_000 making the userinfo call and then the very
    calls of route.ts. *)
Theorem handlers_agree (w : World) (request : Request) (tok : string)
    (ur : FetchResponse unit) :
  history_free w ->
  accessToken request = Some tok ->
  tok <> "" ->
  userinfo w [] tok = inr ur ->
  ok ur = true ->
  exists r r' tr,
    run (RouteTs.GET w request) = (Normal r', tr) /\
    run (Part000.GET w request) = (Normal r, UserInfo tok :: tr) /\
    status r = status r' /\
    body r = body r'.
Proof.
  intros Hfree Ht Hne Hu Hok.
  rewrite (RouteTs_GET_token w request tok Ht Hne).
  rewrite (Part000_GET_token w request tok Ht Hne ur Hu Hok).
  unfold try_catch.
  destruct (subscribedVideos_history_free w cacheHeaders [] tok
              [UserInfo tok] [] Hfree)
    as (calls & [(e & -> & ->) | (r & r' & -> & -> & Hst & Hb)]).
  - unfold NextResponse_json, ret; simpl. do 3 eexists.
    repeat split; reflexivity.
  - exists r, r', calls. now repeat split.
Qed.

Lemma history_free_example : history_free Examples.world.
Proof.
  repeat split.
Qed.

Lemma handlers_agree_witness :
  exists r r' tr,
    run (RouteTs.GET Examples.world Examples.request) = (Normal r', tr) /\
    run (Part000.GET Examples.world Examples.request) =
      (Normal r, UserInfo "ya29.token" :: tr) /\
    status r = status r' /\
    body r = body r'.
Proof.
  apply (handlers_agree Examples.world Examples.request "ya29.token"
           {| http_status := 200; json := inr tt |}).
  - exact history_free_example.
  - reflexivity.
  - discriminate.
  - reflexivity.
  - reflexivity.
Defined.

(** ** A search call that fails in the middle of the loop *)

(** The loop over channels that all answer with JSON, followed by more
    channels. *)
Lemma for_channelIds_app (w : World) (pre rest : list string) :
  (forall tr ch, In ch pre -> Spec.answers_json w tr ch) ->
  forall allVideos tr,
    for_channelIds w (pre ++ rest) allVideos tr =
    for_channelIds w rest (allVideos ++ Spec.allVideos w tr pre)
      (tr ++ map (Search (YOUTUBE_API_KEY w)) pre).
Proof.
  induction pre as [|ch pre IH]; intros Hjson acc tr; simpl.
  - now rewrite !app_nil_r.
  - destruct (Hjson tr ch (or_introl eq_refl)) as (response & data & Hs & Hj).
    unfold bind at 1 2. unfold fetch, response_json, Spec.contribution.
    rewrite Hs, Hj. unfold ret.
    assert (Hpre : forall tr0 c, In c pre -> Spec.answers_json w tr0 c)
      by (intros; apply Hjson; now right).
    destruct (ok response); simpl.
    + destruct (error data); simpl.
      * rewrite IH by assumption. now rewrite <- app_assoc.
      * unfold bind, clock. rewrite IH by assumption.
        now rewrite <- !app_assoc.
    + rewrite IH by assumption. now rewrite <- app_assoc.
Qed.

(** X16. A search call that fails at the transport level, or whose body is
    not JSON, ends the request whichever channel it is for: the response is
    500 "Internal server error" with the message of the failure, the videos
    collected from the channels before are not returned, and the channels
    after are not asked. *)
Theorem search_failure_aborts (w : World) (request : Request) (tok : string)
    (ur : FetchResponse unit) (sr : FetchResponse (Payload Subscription))
    (data : Payload Subscription) (sub : Subscription)
    (subs : list Subscription) (pre post : list string) (ch : string)
    (e : Exn) :
  accessToken request = Some tok ->
  tok <> "" ->
  userinfo w [] tok = inr ur ->
  ok ur = true ->
  subscriptions w [UserInfo tok] tok = inr sr ->
  json sr = inr data ->
  error data = None ->
  items data = Some (sub :: subs) ->
  channelIds (sub :: subs) = pre ++ ch :: post ->
  (forall tr c, In c pre -> Spec.answers_json w tr c) ->
  let key := YOUTUBE_API_KEY w in
  let tr1 := [UserInfo tok; Subscriptions tok] ++ map (Search key) pre in
  (exists m, search w tr1 key ch = inl m /\ e = FetchFailed m) \/
  (exists response m, search w tr1 key ch = inr response /\
                      json response = inl m /\ e = BodyNotJson m) ->
  run (Part000.GET w request) =
    (Normal {| status := 500; headers := cacheHeaders;
               body := ErrorBody "Internal server error"
                         (Some (DetailsMessage e)) |},
     tr1 ++ [Search key ch]).
Proof.
  intros Ht Hne Hu Hok Hs Hj He Hi Hids Hjson key tr1 Hfail.
  rewrite (Part000_GET_token w request tok Ht Hne ur Hu Hok).
  unfold try_catch.
  rewrite (subscribedVideos_records w cacheHeaders tok [UserInfo tok] sr
             data sub subs Hs Hj He Hi).
  rewrite Hids. unfold bind at 1.
  rewrite (for_channelIds_app w pre (ch :: post) Hjson).
  simpl for_channelIds. unfold bind at 1. unfold fetch.
  fold key. subst tr1. cbn [app] in Hfail |- *.
  destruct Hfail as [(m & Hsearch & ->) | (response & m & Hsearch & Hjs & ->)];
    rewrite Hsearch.
  - reflexivity.
  - unfold bind, response_json. now rewrite Hjs.
Qed.

Lemma search_failure_aborts_witness :
  run (Part000.GET Examples.world_channel_unreachable Examples.request) =
    (Normal {| status := 500; headers := cacheHeaders;
               body := ErrorBody "Internal server error"
                         (Some (DetailsMessage (FetchFailed "fetch failed"))) |},
     [UserInfo "ya29.token"; Subscriptions "ya29.token";
      Search (Some "server-key") "UCa"]).
Proof.
  apply (search_failure_aborts Examples.world_channel_unreachable
           Examples.request "ya29.token"
           {| http_status := 200; json := inr tt |}
           {| http_status := 200;
              json := inr (Examples.itemsOnly
                             [Examples.subscription "UCa";
                              Examples.subscription "UCb"]) |}
           (Examples.itemsOnly
              [Examples.subscription "UCa"; Examples.subscription "UCb"])
           (Examples.subscription "UCa") [Examples.subscription "UCb"]
           [] ["UCb"] "UCa" (FetchFailed "fetch failed"));
    try reflexivity; try discriminate.
  - intros tr c [].
  - left. exists "fetch failed". split; reflexivity.
Defined.

(** ** Order and clock in a batch *)

Lemma map_videoId_batch (now : nat -> string) (l : list YouTubeVideo) :
  forall i,
    map videoId
      (filter keep (map_from (fun k item => sanitize (now k) item) i l)) =
    filter_Boolean
      (map (fun item =>
              if truthy (rawThumbnail item) then rawVideoId item else None) l).
Proof.
  induction l as [|item l IH]; intros i; simpl; [reflexivity|].
  assert (E : keep (sanitize (now i) item) =
              truthy (rawVideoId item) && truthy (rawThumbnail item)).
  { apply eq_true_iff_eq.
    now rewrite keep_sanitize, andb_true_iff, !truthy_Some. }
  rewrite E.
  destruct (truthy (rawThumbnail item)); simpl.
  - rewrite andb_true_r. destruct (truthy (rawVideoId item)); simpl;
      now rewrite IH.
  - rewrite andb_false_r. apply IH.
Qed.

(** X17. A batch keeps the upstream order: its video identifiers are those
    of the records that have an identifier and a thumbnail, in the order of
    the payload.  When every record has a publish timestamp the batch does
    not depend on the clock. *)
Theorem sanitizedVideos_order_and_clock (now now' : nat -> string)
    (l : list YouTubeVideo) :
  map videoId (sanitizedVideos now (Some l)) =
    filter_Boolean
      (map (fun item =>
              if truthy (rawThumbnail item) then rawVideoId item else None) l)
  /\
  (Forall (fun item => present (rawPublishedAt item)) l ->
   sanitizedVideos now (Some l) = sanitizedVideos now' (Some l)).
Proof.
  split; [apply map_videoId_batch|].
  intros Hall. unfold sanitizedVideos. f_equal.
  generalize O. induction Hall as [|item l (s & Hs & Hne) _ IH]; intros i;
    simpl; [reflexivity|].
  rewrite (IH (S i)). f_equal. unfold sanitize.
  fold (rawPublishedAt item).
  now rewrite (or_else_present _ (now i) s Hs Hne),
              (or_else_present _ (now' i) s Hs Hne).
Qed.

Lemma sanitizedVideos_order_and_clock_witness :
  map videoId
    (sanitizedVideos (fun _ => Examples.T0) (Some Examples.videosA)) =
    ["a1"; "a2"; "a3"] /\
  sanitizedVideos (fun _ => Examples.T0) (Some Examples.videosA) =
  sanitizedVideos (fun _ => Examples.T4) (Some Examples.videosA).
Proof.
  destruct (sanitizedVideos_order_and_clock (fun _ => Examples.T0)
              (fun _ => Examples.T4) Examples.videosA) as [Horder Hclock].
  split; [exact Horder|]. apply Hclock.
  repeat constructor; eexists; (split; [reflexivity | discriminate]).
Defined.
